(** * HelloWorld overlay tokens

    A shallow embedding of [frontend/src/hello-tokens.ts]: the four token
    operations ([createToken], [updateToken], [redeemToken], [queryTokens]
    with its helpers [findTokenByMessage] and [parseLookupAnswer]).

    The module is glue code around the wallet, the transaction library, the
    topic broadcaster and the lookup resolver.  Those collaborators are not
    part of the repository: synchronous library functions are fields of the
    class [Sdk], asynchronous capabilities are the requests of [Call], and
    every run is taken against an arbitrary [World] that answers them. *)

From Stdlib Require Import ZArith Ascii String List Lia.
From stdpp Require Import base option list strings gmap pretty.

Local Open Scope Z_scope.

(** ** JavaScript values used by the module *)

(** Strings are sequences of code units below 256 (Rocq's [string]); the
    white space and line terminators of [String.prototype.trim] in that
    range are TAB, LF, VT, FF, CR, SPACE and NBSP. *)
Module Js.

Definition is_white_space (c : ascii) : bool :=
  let n := N_of_ascii c in
  ((9 <=? n)%N && (n <=? 13)%N) || (n =? 32)%N || (n =? 160)%N.

Fixpoint whitespace_only (s : string) : bool :=
  match s with
  | EmptyString => true
  | String c r => is_white_space c && whitespace_only r
  end.

Fixpoint trimStart (s : string) : string :=
  match s with
  | EmptyString => EmptyString
  | String c r => if is_white_space c then trimStart r else s
  end.

Fixpoint trimEnd (s : string) : string :=
  match s with
  | EmptyString => EmptyString
  | String c r =>
      match trimEnd r with
      | EmptyString => if is_white_space c then EmptyString else String c EmptyString
      | r' => String c r'
      end
  end.

Definition trim (s : string) : string := trimEnd (trimStart s).

(** Truthiness of a string: every string but the empty one. *)
Definition truthy (s : string) : bool :=
  match s with EmptyString => false | String _ _ => true end.

(** [x ?? d] and the default of a destructured or optional parameter. *)
Definition nullish {A} (x : option A) (d : A) : A :=
  match x with Some a => a | None => d end.

(** Truthiness of an optional boolean ([undefined] is falsy). *)
Definition truthy_bool (b : option bool) : bool :=
  match b with Some true => true | _ => false end.

(** [xs[i]] for a number [i]: [undefined] outside the array. *)
Definition index {A} (xs : list A) (i : Z) : option A :=
  if i <? 0 then None else nth_error xs (Z.to_nat i).

(** Numbers are modelled by their value when it is an integer.  [to_double]
    is the Number value nearest to a positive integer: 53 significant bits,
    ties to the even one. *)
Definition to_double (v : Z) : Z :=
  let bits := Z.log2 v + 1 in
  if bits <=? 53 then v
  else
    let unit := 2 ^ (bits - 53) in
    let q := v / unit in
    let r := v mod unit in
    let half := unit / 2 in
    (if (half <? r) || ((r =? half) && Z.odd q) then q + 1 else q) * unit.

Definition digits (v : Z) : Z := Z.of_nat (String.length (pretty v)).

(** The decimal with the fewest significant digits, [k] or more, that reads
    back as the Number [x] of [n] digits; of two such, the closer one. *)
Fixpoint shortest (fuel : nat) (k : Z) (x n : Z) : Z :=
  match fuel with
  | O => x
  | S fuel' =>
      let p := 10 ^ Z.max 0 (n - k) in
      let lo := x / p * p in
      let hi := lo + p in
      let lo_ok := to_double lo =? x in
      let hi_ok := to_double hi =? x in
      if lo_ok && hi_ok then
        (if x - lo <? hi - x then lo
         else if hi - x <? x - lo then hi
         else if Z.even (lo / p) then lo else hi)
      else if lo_ok then lo
      else if hi_ok then hi
      else shortest fuel' (k + 1) x n
  end.

Fixpoint strip_zeros (s : string) : string :=
  match s with
  | EmptyString => EmptyString
  | String c r =>
      match strip_zeros r with
      | EmptyString => if Ascii.eqb c "0" then EmptyString else String c EmptyString
      | r' => String c r'
      end
  end.

(** [d.ddde+N] for the digits of a number of more than 21 digits. *)
Definition exponential (ds : string) : string :=
  let e := pretty (Z.of_nat (String.length ds) - 1) in
  match strip_zeros ds with
  | EmptyString => "0"
  | String d EmptyString => String d ("e+" +:+ e)
  | String d more => String d ("." +:+ more +:+ "e+" +:+ e)
  end.

(** A number inside a template literal ([Number::toString], radix 10): the
    plain decimal up to 2^53, where every integer is a Number; beyond that
    the shortest decimal that reads back as the nearest Number, padded with
    zeros up to 21 digits and in exponent form from 1e21 on. *)
Definition number_toString (n : Z) : string :=
  if Z.abs n <=? 2 ^ 53 then pretty n
  else
    let sign := if n <? 0 then "-" else "" in
    let x := to_double (Z.abs n) in
    if 2 ^ 1024 <=? x then sign +:+ "Infinity"
    else
      let ds := pretty (shortest 17 1 x (digits x)) in
      sign +:+ (if (String.length ds <=? 21)%nat then ds else exponential ds).
Arguments number_toString : simpl never.

End Js.

(** ** Failures *)

(** [Error msg] is an error this module throws itself; [TypeError] is raised
    by the run time on a property read of [undefined]; [Foreign] is whatever
    a collaborator threw or rejected with. *)
Inductive Exn : Type :=
| Error (message : string)
| TypeError (message : string)
| Foreign (reason : string).

Inductive Result (A : Type) : Type :=
| Ok (a : A)
| Thrown (e : Exn).
Arguments Ok {A} a.
Arguments Thrown {A} e.

(** What a collaborator gives back: a value, or a throw / rejected promise. *)
Inductive Reply (A : Type) : Type :=
| Resolved (a : A)
| Rejected (reason : string).
Arguments Resolved {A} a.
Arguments Rejected {A} reason.

Definition of_reply {A} (r : Reply A) : Result A :=
  match r with
  | Resolved a => Ok a
  | Rejected reason => Thrown (Foreign reason)
  end.

(** The three messages of the module, under the names the specification
    gives to the failures. *)
Definition ConstructionError : Exn := Error "Failed to create transaction".
Definition MissingProofError : Exn := Error "Token must contain tx BEEF to be updated".
Definition SigningError : Exn := Error "Unable to redeem token!".

(** ** Data model *)

Definition BEEF := list Z.
Definition AtomicBEEF := list Z.

Record TokenData : Type := mkTokenData {
  txid : string;
  outputIndex : Z;
  lockingScript : string;
  satoshis : option Z;    (* [out.satoshis!]: the assertion is erased *)
  beef : option BEEF
}.

Record HelloWorldToken : Type := mkToken {
  message : string;
  token : TokenData
}.

Definition DEFAULT_TOPIC : string := "tm_helloworld_bitspv".
Definition WalletProtocol : Type := Z * string.
Definition PROTOCOL : WalletProtocol := (1, "HelloWorld").
Definition KEY_ID : string := "1".

Inductive WalletNetwork : Type := mainnet | testnet.
Inductive NetworkPreset : Type := preset (n : WalletNetwork) | local.

(** A wallet is a handle; [WalletClient_new] is [new WalletClient()]. *)
Inductive WalletInterface : Type :=
| WalletClient_new
| WalletHandle (id : nat).

(** A resolver is a handle; [LookupResolver_new] is
    [new LookupResolver({ networkPreset })]. *)
Inductive LookupResolver : Type :=
| LookupResolver_new (networkPreset : WalletNetwork)
| ResolverHandle (id : nat).

Inductive SortOrder : Type := asc | desc.

Definition SortOrder_string (o : SortOrder) : string :=
  match o with asc => "asc" | desc => "desc" end.

(** Values stored in the query object ([Record<string, unknown>]). *)
Inductive QValue : Type :=
| QNum (n : Z)
| QStr (s : string).

Module Params.
Record t : Type := mk {
  limit : Z;
  skip : option Z;
  sortOrder : option SortOrder;
  message : option string;
  startDate : option string;
  endDate : option string
}.
End Params.

(** The options of [queryTokens]; an omitted [opts] is the empty object. *)
Module Opts.
Record t : Type := mk {
  resolver : option LookupResolver;
  network : option WalletNetwork;
  timeout : option Z;
  includeBeef : option bool
}.
Definition empty : t := mk None None None None.
End Opts.

(** The options of [findTokenByMessage]. *)
Module FindOpts.
Record t : Type := mk {
  resolver : option LookupResolver;
  network : option WalletNetwork;
  timeout : option Z;
  includeBeef : option bool;
  limit : option Z
}.
Definition empty : t := mk None None None None None.
End FindOpts.

Record LookupQuestion : Type := mkQuestion {
  service : string;
  query : gmap string QValue
}.

Record LookupOutput : Type := mkLookupOutput {
  lo_beef : BEEF;
  lo_outputIndex : Z
}.

(** Modelled from the spec: the library's declaration of [LookupAnswer] is not
    in the repository; the answer is "either an output list or some other
    shape", told apart by its [type] tag.  Only an output list has [outputs]. *)
Record LookupAnswer : Type := mkAnswer {
  answer_type : string;
  answer_outputs : option (list LookupOutput)
}.

Record CreateActionInput : Type := mkInput {
  outpoint : string;
  unlockingScriptLength : Z;
  inputDescription : string
}.

Record CreateActionOutput : Type := mkOutput {
  out_satoshis : Z;
  out_lockingScript : string;
  outputDescription : string
}.

Record CreateActionOptions : Type := mkOptions {
  acceptDelayedBroadcast : bool;
  randomizeOutputs : bool
}.

Record CreateActionArgs : Type := mkCreateArgs {
  description : string;
  inputBEEF : option BEEF;
  inputs : option (list CreateActionInput);
  outputs : option (list CreateActionOutput);
  options : CreateActionOptions
}.

Record SignableTransaction : Type := mkSignable {
  st_tx : AtomicBEEF;
  st_reference : string
}.

Record CreateActionResult : Type := mkCreateResult {
  car_tx : option AtomicBEEF;
  signableTransaction : option SignableTransaction
}.

Record SignActionArgs : Type := mkSignArgs {
  reference : string;
  spends : list (Z * string)     (* input index |-> unlocking script, hex *)
}.

Record SignActionResult : Type := mkSignResult {
  sar_tx : option AtomicBEEF
}.

Inductive BroadcastResult : Type :=
| BroadcastResponse (txid message : string)
| BroadcastFailure (code description : string).

(** ** The library and the collaborators *)

Record TransactionOutput (Script : Type) : Type := mkTxOut {
  to_lockingScript : Script;
  to_satoshis : option Z
}.
Arguments mkTxOut {Script} _ _.
Arguments to_lockingScript {Script} _.
Arguments to_satoshis {Script} _.

Record PushDropData : Type := mkPushDropData {
  fields : list (list Z)
}.

(** The synchronous part of the transaction library.  A function that can
    throw answers with a [Reply].  [Beef_fromBinary] and [Utils_toUTF8] take
    an optional argument because the module can hand them [undefined]
    (the cast [as number[]] is erased; [data.fields[0]] may be missing). *)
Class Sdk : Type := {
  LockingScript : Type;
  UnlockingScript : Type;
  Transaction : Type;
  Beef : Type;
  Utils_toArray : string -> list Z;
  Utils_toUTF8 : option (list Z) -> Reply string;
  LockingScript_toHex : LockingScript -> string;
  UnlockingScript_toHex : UnlockingScript -> string;
  Transaction_fromBEEF : BEEF -> Reply Transaction;
  Transaction_fromAtomicBEEF : AtomicBEEF -> Reply Transaction;
  Transaction_outputs : Transaction -> list (TransactionOutput LockingScript);
  Transaction_id_hex : Transaction -> string;
  PushDrop_decode : LockingScript -> Reply PushDropData;
  Beef_fromBinary : option BEEF -> Reply Beef;
  Beef_toBinary : Beef -> BEEF
}.

Section Protocol.
Context {sdk : Sdk}.

(** The asynchronous requests, indexed by the type of their answer. *)
Inductive Call : Type -> Type :=
| PushDrop_lock (wallet : WalletInterface) (flds : list (list Z))
    (protocolID : WalletProtocol) (keyID counterparty : string) (forSelf : bool)
  : Call LockingScript
| PushDrop_unlock_sign (wallet : WalletInterface)
    (protocolID : WalletProtocol) (keyID counterparty : string)
    (tx : Transaction) (inputIndex : Z)
  : Call UnlockingScript
| Wallet_createAction (wallet : WalletInterface) (args : CreateActionArgs)
  : Call CreateActionResult
| Wallet_signAction (wallet : WalletInterface) (args : SignActionArgs)
  : Call SignActionResult
| Wallet_getNetwork (wallet : WalletInterface)
  : Call WalletNetwork
| TopicBroadcaster_broadcast (topics : list string) (networkPreset : NetworkPreset)
    (tx : Transaction)
  : Call BroadcastResult
| LookupResolver_query (resolver : LookupResolver) (question : LookupQuestion)
    (timeout : Z)
  : Call LookupAnswer.

(** A procedure of the module: it returns, throws, or awaits a request and
    goes on with the answer. *)
Inductive Prog (A : Type) : Type :=
| Ret (a : A)
| Throw (e : Exn)
| Await {X : Type} (c : Call X) (k : X -> Prog A).
Arguments Ret {A} a.
Arguments Throw {A} e.
Arguments Await {A X} c k.

Fixpoint bind {A B} (p : Prog A) (f : A -> Prog B) : Prog B :=
  match p with
  | Ret a => f a
  | Throw e => Throw e
  | Await c k => Await c (fun x => bind (k x) f)
  end.

Definition call {X} (c : Call X) : Prog X := Await c Ret.

Definition lift {A} (r : Reply A) : Prog A :=
  match r with
  | Resolved a => Ret a
  | Rejected reason => Throw (Foreign reason)
  end.

(** One request together with the answer it got. *)
Inductive Event : Type :=
| Ev {X : Type} (c : Call X) (r : Reply X).

(** The collaborators: they answer each request, knowing what happened before. *)
Definition World : Type := list Event -> forall X, Call X -> Reply X.

Fixpoint run {A} (w : World) (tr : list Event) (p : Prog A) : Result A * list Event :=
  match p with
  | Ret a => (Ok a, tr)
  | Throw e => (Thrown e, tr)
  | Await c k =>
      match w tr _ c with
      | Resolved x => run w (tr ++ [Ev c (Resolved x)]) (k x)
      | Rejected reason => (Thrown (Foreign reason), tr ++ [Ev c (Rejected reason)])
      end
  end.

Definition exec {A} (w : World) (p : Prog A) : Result A * list Event := run w [] p.

End Protocol.

Arguments Ret {sdk A} a.
Arguments Throw {sdk A} e.
Arguments Await {sdk A X} c k.
Arguments Ev {sdk X} c r.

Notation "'let!' x ':=' p 'in' q" := (bind p (fun x => q))
  (at level 10, x name, p at level 100, q at level 200).

(** Exceptions in synchronous code. *)
Definition rbind {A B} (r : Result A) (f : A -> Result B) : Result B :=
  match r with
  | Ok a => f a
  | Thrown e => Thrown e
  end.

Notation "'let?' x ':=' r 'in' q" := (rbind r (fun x => q))
  (at level 10, x name, r at level 100, q at level 200).

(** [xs.map(f)] when [f] can throw: the first throw ends the loop. *)
Fixpoint map_throwing {A B} (f : A -> Result B) (xs : list A) : Result (list B) :=
  match xs with
  | [] => Ok []
  | x :: rest =>
      let? y := f x in
      let? ys := map_throwing f rest in
      Ok (y :: ys)
  end.

Definition of_result {sdk : Sdk} {A} (r : Result A) : Prog A :=
  match r with
  | Ok a => Ret a
  | Thrown e => Throw e
  end.

(** ** The operations *)

Section Operations.
Context {sdk : Sdk}.

Definition spend_options : CreateActionOptions :=
  {| acceptDelayedBroadcast := false; randomizeOutputs := false |}.

(** [createToken], lines 30-56. *)
Definition createToken (msg : string) (wallet_arg : option WalletInterface)
  : Prog BroadcastResult :=
  let wallet := Js.nullish wallet_arg WalletClient_new in
  let! outputScript :=
    call (PushDrop_lock wallet [Utils_toArray msg] PROTOCOL KEY_ID "anyone" true) in
  let! created :=
    call (Wallet_createAction wallet
      {| description := "Create a HelloWorld token";
         inputBEEF := None;
         inputs := None;
         outputs := Some [ {| out_satoshis := 1;
                              out_lockingScript := LockingScript_toHex outputScript;
                              outputDescription := "New HelloWorld Token" |} ];
         options := spend_options |}) in
  match car_tx created with
  | None => Throw ConstructionError
  | Some tx =>
      let! t := lift (Transaction_fromAtomicBEEF tx) in
      call (TopicBroadcaster_broadcast [DEFAULT_TOPIC] local t)
  end.

Definition prevOutpoint (t : HelloWorldToken) : string :=
  txid (token t) +:+ "." +:+ Js.number_toString (outputIndex (token t)).

Definition spend_input (t : HelloWorldToken) : CreateActionInput :=
  {| outpoint := prevOutpoint t;
     unlockingScriptLength := 74;
     inputDescription := "Spend previous HelloWorld token" |}.

(** [updateToken], lines 65-123.  The guard of line 70 comes first; the
    answer of [createAction] is read for its [signableTransaction] only. *)
Definition updateToken (prevToken : HelloWorldToken) (newMessage : string)
    (wallet_arg : option WalletInterface) : Prog BroadcastResult :=
  let wallet := Js.nullish wallet_arg WalletClient_new in
  match beef (token prevToken) with
  | None => Throw MissingProofError
  | Some _ =>
      let! newLocking :=
        call (PushDrop_lock wallet [Utils_toArray newMessage] PROTOCOL KEY_ID "anyone" true) in
      let! loadedBEEF := lift (Beef_fromBinary (beef (token prevToken))) in
      let! created :=
        call (Wallet_createAction wallet
          {| description := "Update HelloWorld token";
             inputBEEF := Some (Beef_toBinary loadedBEEF);
             inputs := Some [ spend_input prevToken ];
             outputs := Some [ {| out_satoshis := 1;
                                  out_lockingScript := LockingScript_toHex newLocking;
                                  outputDescription := "Updated HelloWorld Token" |} ];
             options := spend_options |}) in
      match signableTransaction created with
      | None => Throw SigningError
      | Some signable =>
          let! partial := lift (Transaction_fromBEEF (st_tx signable)) in
          let! unlockingScript :=
            call (PushDrop_unlock_sign wallet PROTOCOL KEY_ID "anyone" partial 0) in
          let! signed :=
            call (Wallet_signAction wallet
              {| reference := st_reference signable;
                 spends := [ (0, UnlockingScript_toHex unlockingScript) ] |}) in
          match sar_tx signed with
          | None => Throw SigningError
          | Some tx =>
              let! net := call (Wallet_getNetwork wallet) in
              let! t := lift (Transaction_fromAtomicBEEF tx) in
              call (TopicBroadcaster_broadcast [DEFAULT_TOPIC] (preset net) t)
          end
      end
  end.

(** [redeemToken], lines 131-165: no test of [token.token.beef]; the bundle
    goes to [Beef.fromBinary] as it is. *)
Definition redeemToken (tok : HelloWorldToken) (wallet : WalletInterface)
  : Prog BroadcastResult :=
  let! loadedBEEF := lift (Beef_fromBinary (beef (token tok))) in
  let! created :=
    call (Wallet_createAction wallet
      {| description := "Redeem HelloWorld token";
         inputBEEF := Some (Beef_toBinary loadedBEEF);
         inputs := Some [ spend_input tok ];
         outputs := None;
         options := spend_options |}) in
  match signableTransaction created with
  | None => Throw SigningError
  | Some signable =>
      let! partial := lift (Transaction_fromBEEF (st_tx signable)) in
      let! unlockingScript :=
        call (PushDrop_unlock_sign wallet PROTOCOL KEY_ID "anyone" partial 0) in
      let! signed :=
        call (Wallet_signAction wallet
          {| reference := st_reference signable;
             spends := [ (0, UnlockingScript_toHex unlockingScript) ] |}) in
      match sar_tx signed with
      | None => Throw SigningError
      | Some tx =>
          let! net := call (Wallet_getNetwork wallet) in
          let! t := lift (Transaction_fromAtomicBEEF tx) in
          call (TopicBroadcaster_broadcast [DEFAULT_TOPIC] (preset net) t)
      end
  end.

(** The arrow function of [parseLookupAnswer], lines 259-273. *)
Definition parseOutput (includeBeef : option bool) (o : LookupOutput)
  : Result HelloWorldToken :=
  let? tx := of_reply (Transaction_fromBEEF (lo_beef o)) in
  match Js.index (Transaction_outputs tx) (lo_outputIndex o) with
  | None => Thrown (TypeError "Cannot read properties of undefined (reading 'lockingScript')")
  | Some out =>
      let? data := of_reply (PushDrop_decode (to_lockingScript out)) in
      let? text := of_reply (Utils_toUTF8 (head (fields data))) in
      Ok {| message := text;
            token := {| txid := Transaction_id_hex tx;
                        outputIndex := lo_outputIndex o;
                        lockingScript := LockingScript_toHex (to_lockingScript out);
                        satoshis := to_satoshis out;
                        beef := if Js.truthy_bool includeBeef
                                then Some (lo_beef o) else None |} |}
  end.

(** [parseLookupAnswer], lines 256-274. *)
Definition parseLookupAnswer (lookupAnswer : LookupAnswer) (includeBeef : option bool)
  : Result (list HelloWorldToken) :=
  if negb (String.eqb (answer_type lookupAnswer) "output-list") then Ok []
  else
    match answer_outputs lookupAnswer with
    | None => Thrown (TypeError "Cannot read properties of undefined (reading 'length')")
    | Some outs =>
        if (length outs =? 0)%nat then Ok []
        else map_throwing (parseOutput includeBeef) outs
    end.

(** Lines 191-199 of [queryTokens]: the query object. *)
Definition queryTokens_query (params : Params.t) : gmap string QValue :=
  let limit := Params.limit params in
  let skip := Js.nullish (Params.skip params) 0 in
  let sortOrder := Js.nullish (Params.sortOrder params) desc in
  let query : gmap string QValue :=
    <["sortOrder" := QStr (SortOrder_string sortOrder)]>
      (<["skip" := QNum skip]> (<["limit" := QNum limit]> ∅)) in
  let query :=
    match Params.message params with
    | Some m => if Js.truthy (Js.trim m) then <["message" := QStr (Js.trim m)]> query
                else query
    | None => query
    end in
  let query :=
    match Params.startDate params with
    | Some d => if Js.truthy d then <["startDate" := QStr (d +:+ "T00:00:00.000Z")]> query
                else query
    | None => query
    end in
  let query :=
    match Params.endDate params with
    | Some d => if Js.truthy d then <["endDate" := QStr (d +:+ "T23:59:59.999Z")]> query
                else query
    | None => query
    end in
  query.

(** [queryTokens], lines 175-212. *)
Definition queryTokens (params : Params.t) (opts_arg : option Opts.t)
  : Prog (list HelloWorldToken) :=
  let opts := Js.nullish opts_arg Opts.empty in
  let query := queryTokens_query params in
  let resolver :=
    Js.nullish (Opts.resolver opts)
      (LookupResolver_new (Js.nullish (Opts.network opts) mainnet)) in
  let! answer :=
    call (LookupResolver_query resolver
            {| service := "ls_helloworld_bitspv"; query := query |}
            (Js.nullish (Opts.timeout opts) 10000)) in
  of_result (parseLookupAnswer answer (Opts.includeBeef opts)).

(** [findTokenByMessage], lines 225-248. *)
Definition findTokenByMessage (msg : string) (opts_arg : option FindOpts.t)
  : Prog (list HelloWorldToken) :=
  let opts := Js.nullish opts_arg FindOpts.empty in
  queryTokens
    {| Params.limit := Js.nullish (FindOpts.limit opts) 100;
       Params.skip := None;
       Params.sortOrder := Some desc;
       Params.message := Some msg;
       Params.startDate := None;
       Params.endDate := None |}
    (Some {| Opts.resolver := FindOpts.resolver opts;
       Opts.network := FindOpts.network opts;
       Opts.timeout := FindOpts.timeout opts;
       Opts.includeBeef := FindOpts.includeBeef opts |}).

End Operations.

(** ** Comparing results *)

(** A token with its proof bundle taken off. *)
Definition without_beef (t : HelloWorldToken) : HelloWorldToken :=
  {| message := message t;
     token := {| txid := txid (token t);
                 outputIndex := outputIndex (token t);
                 lockingScript := lockingScript (token t);
                 satoshis := satoshis (token t);
                 beef := None |} |}.

Definition Result_map {A B} (f : A -> B) (r : Result A) : Result B :=
  match r with
  | Ok a => Ok (f a)
  | Thrown e => Thrown e
  end.

(** Is [i] a position of the array [xs]? *)
Definition in_range {A} (xs : list A) (i : Z) : bool :=
  (0 <=? i) && (i <? Z.of_nat (length xs)).

(** ** Reading a trace *)

Section Observers.
Context {sdk : Sdk}.

Inductive Kind : Type :=
| KLock | KUnlockSign | KCreateAction | KSignAction | KGetNetwork | KBroadcast | KQuery.

Definition kind_of_call {X} (c : Call X) : Kind :=
  match c with
  | PushDrop_lock _ _ _ _ _ _ => KLock
  | PushDrop_unlock_sign _ _ _ _ _ _ => KUnlockSign
  | Wallet_createAction _ _ => KCreateAction
  | Wallet_signAction _ _ => KSignAction
  | Wallet_getNetwork _ => KGetNetwork
  | TopicBroadcaster_broadcast _ _ _ => KBroadcast
  | LookupResolver_query _ _ _ => KQuery
  end.

Definition kind_of (e : Event) : Kind :=
  match e with Ev c _ => kind_of_call c end.

Definition Kind_eqb (a b : Kind) : bool :=
  match a, b with
  | KLock, KLock | KUnlockSign, KUnlockSign | KCreateAction, KCreateAction
  | KSignAction, KSignAction | KGetNetwork, KGetNetwork | KBroadcast, KBroadcast
  | KQuery, KQuery => true
  | _, _ => false
  end.

(** Does the trace hold a request of kind [k]? *)
Definition happened (k : Kind) (tr : list Event) : bool :=
  existsb (fun e => Kind_eqb k (kind_of e)) tr.

Definition resolved {X} (r : Reply X) : option X :=
  match r with Resolved x => Some x | Rejected _ => None end.

(** What [createAction] answered, when it did. *)
Definition created_of (e : Event) : option CreateActionResult :=
  match e with
  | Ev c r =>
      match c in Call X return Reply X -> option CreateActionResult with
      | Wallet_createAction _ _ => resolved
      | _ => fun _ => None
      end r
  end.

(** What [signAction] answered, when it did. *)
Definition signed_of (e : Event) : option SignActionResult :=
  match e with
  | Ev c r =>
      match c in Call X return Reply X -> option SignActionResult with
      | Wallet_signAction _ _ => resolved
      | _ => fun _ => None
      end r
  end.

(** The arguments [createAction] was called with. *)
Definition create_args_of (e : Event) : option (WalletInterface * CreateActionArgs) :=
  match e with
  | Ev c _ =>
      match c with
      | Wallet_createAction w a => Some (w, a)
      | _ => None
      end
  end.

(** The question a resolver was asked, with the resolver and the timeout. *)
Definition query_of (e : Event) : option (LookupResolver * LookupQuestion * Z) :=
  match e with
  | Ev c _ =>
      match c with
      | LookupResolver_query r q t => Some (r, q, t)
      | _ => None
      end
  end.

Definition created (tr : list Event) : list CreateActionResult := omap created_of tr.
Definition signed (tr : list Event) : list SignActionResult := omap signed_of tr.
Definition create_calls (tr : list Event) := omap create_args_of tr.
Definition queries (tr : list Event) := omap query_of tr.

(** The query objects that went out, in order. *)
Definition sent_queries (tr : list Event) : list (gmap string QValue) :=
  map (fun x => query (snd (fst x))) (queries tr).

(** The other requests, read the same way: what was asked, and what was
    answered when an answer came. *)
Definition lock_of (e : Event)
  : option (WalletInterface * list (list Z) * WalletProtocol * string * string * bool) :=
  match e with
  | Ev c _ =>
      match c with
      | PushDrop_lock w f p k cp fs => Some (w, f, p, k, cp, fs)
      | _ => None
      end
  end.

Definition lock_answer_of (e : Event) : option LockingScript :=
  match e with
  | Ev c r =>
      match c in Call X return Reply X -> option LockingScript with
      | PushDrop_lock _ _ _ _ _ _ => resolved
      | _ => fun _ => None
      end r
  end.

Definition unlock_of (e : Event)
  : option (WalletInterface * WalletProtocol * string * string * Transaction * Z) :=
  match e with
  | Ev c _ =>
      match c with
      | PushDrop_unlock_sign w p k cp tx i => Some (w, p, k, cp, tx, i)
      | _ => None
      end
  end.

Definition unlock_answer_of (e : Event) : option UnlockingScript :=
  match e with
  | Ev c r =>
      match c in Call X return Reply X -> option UnlockingScript with
      | PushDrop_unlock_sign _ _ _ _ _ _ => resolved
      | _ => fun _ => None
      end r
  end.

Definition sign_args_of (e : Event) : option (WalletInterface * SignActionArgs) :=
  match e with
  | Ev c _ =>
      match c with
      | Wallet_signAction w a => Some (w, a)
      | _ => None
      end
  end.

Definition network_of (e : Event) : option WalletNetwork :=
  match e with
  | Ev c r =>
      match c in Call X return Reply X -> option WalletNetwork with
      | Wallet_getNetwork _ => resolved
      | _ => fun _ => None
      end r
  end.

Definition broadcast_of (e : Event)
  : option (list string * NetworkPreset * Transaction) :=
  match e with
  | Ev c _ =>
      match c with
      | TopicBroadcaster_broadcast ts np tx => Some (ts, np, tx)
      | _ => None
      end
  end.

Definition broadcast_answer_of (e : Event) : option BroadcastResult :=
  match e with
  | Ev c r =>
      match c in Call X return Reply X -> option BroadcastResult with
      | TopicBroadcaster_broadcast _ _ _ => resolved
      | _ => fun _ => None
      end r
  end.

(** The wallet a request goes to, for the requests that go to one. *)
Definition wallet_of (e : Event) : option WalletInterface :=
  match e with
  | Ev c _ =>
      match c with
      | PushDrop_lock w _ _ _ _ _ => Some w
      | PushDrop_unlock_sign w _ _ _ _ _ => Some w
      | Wallet_createAction w _ => Some w
      | Wallet_signAction w _ => Some w
      | Wallet_getNetwork w => Some w
      | TopicBroadcaster_broadcast _ _ _ => None
      | LookupResolver_query _ _ _ => None
      end
  end.

(** What the resolver answered, when it did. *)
Definition lookup_answer_of (e : Event) : option LookupAnswer :=
  match e with
  | Ev c r =>
      match c in Call X return Reply X -> option LookupAnswer with
      | LookupResolver_query _ _ _ => resolved
      | _ => fun _ => None
      end r
  end.

(** The reason of a request that failed. *)
Definition rejection_of (e : Event) : option string :=
  match e with
  | Ev _ (Resolved _) => None
  | Ev _ (Rejected reason) => Some reason
  end.

(** Did the request of this event fail? *)
Definition rejected (e : Event) : bool :=
  match e with
  | Ev _ (Resolved _) => false
  | Ev _ (Rejected _) => true
  end.

Definition lock_calls (tr : list Event) := omap lock_of tr.
Definition lock_answers (tr : list Event) := omap lock_answer_of tr.
Definition unlock_calls (tr : list Event) := omap unlock_of tr.
Definition unlock_answers (tr : list Event) := omap unlock_answer_of tr.
Definition sign_calls (tr : list Event) := omap sign_args_of tr.
Definition networks (tr : list Event) := omap network_of tr.
Definition broadcasts (tr : list Event) := omap broadcast_of tr.
Definition broadcast_answers (tr : list Event) := omap broadcast_answer_of tr.
Definition wallets (tr : list Event) := omap wallet_of tr.
Definition lookup_answers (tr : list Event) := omap lookup_answer_of tr.
Definition rejections (tr : list Event) := omap rejection_of tr.

Definition outcome {A} (w : World) (p : Prog A) : Result A := fst (exec w p).
Definition trace {A} (w : World) (p : Prog A) : list Event := snd (exec w p).

End Observers.

(** ** A toy library and scripted collaborators, for the examples *)

Module Demo.

Definition bytes_of_string (s : string) : list Z :=
  map (fun c => Z.of_N (N_of_ascii c)) (list_ascii_of_string s).

Definition string_of_bytes (bs : list Z) : string :=
  string_of_list_ascii (map (fun z => ascii_of_N (Z.to_N z)) bs).

Definition hex_digit (n : Z) : ascii :=
  ascii_of_N (Z.to_N (if n <? 10 then 48 + n else 87 + n)).

Fixpoint toHex (bs : list Z) : string :=
  match bs with
  | [] => EmptyString
  | b :: rest => String (hex_digit (b / 16)) (String (hex_digit (b mod 16)) (toHex rest))
  end.

Definition parse_bundle (b : list Z) : Reply (list (TransactionOutput (list Z))) :=
  match b with
  | [] => Rejected "Serialized BEEF must start with a version number"
  | _ :: _ => Resolved [ mkTxOut b (Some 1) ]
  end.

(** A bundle is one transaction with one output, locked by the bundle's own
    bytes; the script's only data field is the script itself;
    an absent bundle does not parse. *)
Definition sdk : Sdk := {|
  LockingScript := list Z;
  UnlockingScript := list Z;
  Transaction := list (TransactionOutput (list Z));
  Beef := list Z;
  Utils_toArray := bytes_of_string;
  Utils_toUTF8 := fun o =>
    match o with
    | Some bs => Resolved (string_of_bytes bs)
    | None => Rejected "Cannot read properties of undefined (reading 'length')"
    end;
  LockingScript_toHex := toHex;
  UnlockingScript_toHex := toHex;
  Transaction_fromBEEF := parse_bundle;
  Transaction_fromAtomicBEEF := parse_bundle;
  Transaction_outputs := fun tx => tx;
  Transaction_id_hex := fun tx => "aa" +:+ pretty (Z.of_nat (length tx));
  PushDrop_decode := fun s => Resolved {| fields := [s] |};
  Beef_fromBinary := fun o =>
    match o with
    | Some (x :: r) => Resolved (x :: r)
    | _ => Rejected "Serialized BEEF must start with a version number"
    end;
  Beef_toBinary := fun b => b
|}.

(** The same library with a parser that lets an absent bundle through as an
    empty one. *)
Definition lenient_sdk : Sdk := {|
  LockingScript := list Z;
  UnlockingScript := list Z;
  Transaction := list (TransactionOutput (list Z));
  Beef := list Z;
  Utils_toArray := bytes_of_string;
  Utils_toUTF8 := @Utils_toUTF8 sdk;
  LockingScript_toHex := toHex;
  UnlockingScript_toHex := toHex;
  Transaction_fromBEEF := parse_bundle;
  Transaction_fromAtomicBEEF := parse_bundle;
  Transaction_outputs := fun tx => tx;
  Transaction_id_hex := @Transaction_id_hex sdk;
  PushDrop_decode := fun s => Resolved {| fields := [s] |};
  Beef_fromBinary := fun o => Resolved (Js.nullish o []);
  Beef_toBinary := fun b => b
|}.

(** Collaborators that answer from a script, whatever happened before. *)
Definition world (s : Sdk) (lock : @LockingScript s) (unlock : @UnlockingScript s)
    (on_create : Reply CreateActionResult) (on_sign : Reply SignActionResult)
    (on_query : Reply LookupAnswer) : @World s :=
  fun _ X c =>
    match c in Call X return Reply X with
    | PushDrop_lock _ _ _ _ _ _ => Resolved lock
    | PushDrop_unlock_sign _ _ _ _ _ _ => Resolved unlock
    | Wallet_createAction _ _ => on_create
    | Wallet_signAction _ _ => on_sign
    | Wallet_getNetwork _ => Resolved mainnet
    | TopicBroadcaster_broadcast _ _ _ => Resolved (BroadcastResponse "aa1" "accepted")
    | LookupResolver_query _ _ _ => on_query
    end.

Definition wallet : WalletInterface := WalletHandle 1.

(** A token as [queryTokens] returns it without [includeBeef]. *)
Definition token_without_beef : HelloWorldToken :=
  {| message := "hi";
     token := {| txid := "aa1"; outputIndex := 0; lockingScript := "6869";
                 satoshis := Some 1; beef := None |} |}.

Definition token_with_beef : HelloWorldToken :=
  {| message := "hi";
     token := {| txid := "aa1"; outputIndex := 0; lockingScript := "6869";
                 satoshis := Some 1; beef := Some [104; 105] |} |}.

(** A token whose bundle is there but empty. *)
Definition token_with_empty_beef : HelloWorldToken :=
  {| message := "hi";
     token := {| txid := "aa1"; outputIndex := 0; lockingScript := "6869";
                 satoshis := Some 1; beef := Some [] |} |}.

(** A wallet that answers [createAction] with a finished transaction. *)
Definition final_tx_answer : CreateActionResult :=
  {| car_tx := Some [1; 2; 3]; signableTransaction := None |}.

Definition signable_answer : CreateActionResult :=
  {| car_tx := None;
     signableTransaction := Some {| st_tx := [1; 2]; st_reference := "ref" |} |}.

Definition hello_answer : LookupAnswer :=
  {| answer_type := "output-list";
     answer_outputs := Some [ {| lo_beef := [104; 105]; lo_outputIndex := 0 |} ] |}.

Definition freeform_answer : LookupAnswer :=
  {| answer_type := "freeform"; answer_outputs := None |}.

Definition empty_answer : LookupAnswer :=
  {| answer_type := "output-list"; answer_outputs := Some [] |}.

(** A wallet with scripted answers, and no resolver. *)
Definition plain_world (on_create : Reply CreateActionResult)
    (on_sign : Reply SignActionResult) : @World sdk :=
  world sdk [104; 105] [71] on_create on_sign (Rejected "not asked").

(** An answer whose second output carries an empty bundle, which the toy
    library refuses. *)
Definition spoiled_answer : LookupAnswer :=
  {| answer_type := "output-list";
     answer_outputs := Some [ {| lo_beef := [104; 105]; lo_outputIndex := 0 |};
                              {| lo_beef := []; lo_outputIndex := 0 |};
                              {| lo_beef := [111]; lo_outputIndex := 0 |} ] |}.

(** An answer that points at output 3 of a transaction with one output. *)
Definition misindexed_answer : LookupAnswer :=
  {| answer_type := "output-list";
     answer_outputs := Some [ {| lo_beef := [104; 105]; lo_outputIndex := 3 |} ] |}.

(** An answer of two outputs, and the tokens the toy library decodes from
    it: "hi" and "yo". *)
Definition two_outputs : list LookupOutput :=
  [ {| lo_beef := [104; 105]; lo_outputIndex := 0 |};
    {| lo_beef := [121; 111]; lo_outputIndex := 0 |} ].

Definition two_output_answer : LookupAnswer :=
  {| answer_type := "output-list"; answer_outputs := Some two_outputs |}.

Definition two_tokens_without_beef : list HelloWorldToken :=
  [ {| message := "hi";
       token := {| txid := "aa1"; outputIndex := 0; lockingScript := "6869";
                   satoshis := Some 1; beef := None |} |};
    {| message := "yo";
       token := {| txid := "aa1"; outputIndex := 0; lockingScript := "796f";
                   satoshis := Some 1; beef := None |} |} ].

Definition two_tokens_with_beef : list HelloWorldToken :=
  [ {| message := "hi";
       token := {| txid := "aa1"; outputIndex := 0; lockingScript := "6869";
                   satoshis := Some 1; beef := Some [104; 105] |} |};
    {| message := "yo";
       token := {| txid := "aa1"; outputIndex := 0; lockingScript := "796f";
                   satoshis := Some 1; beef := Some [121; 111] |} |} ].

(** An answer whose first output is spoiled and whose second points past the
    outputs of its transaction. *)
Definition spoiled_then_misindexed_answer : LookupAnswer :=
  {| answer_type := "output-list";
     answer_outputs := Some [ {| lo_beef := []; lo_outputIndex := 0 |};
                              {| lo_beef := [104; 105]; lo_outputIndex := 3 |} ] |}.

(** A resolver with a scripted answer, and no wallet. *)
Definition query_world (a : LookupAnswer) : @World sdk :=
  world sdk [] [] (Rejected "no wallet") (Rejected "no wallet") (Resolved a).

End Demo.

(** ** Facts about [trim] *)

Lemma trimStart_empty (s : string) :
  Js.trimStart s = EmptyString <-> Js.whitespace_only s = true.
Proof.
  induction s as [|c r IH]; simpl.
  - tauto.
  - destruct (Js.is_white_space c); simpl.
    + exact IH.
    + split; intros H; discriminate H.
Qed.

Lemma trimEnd_empty (s : string) :
  Js.trimEnd s = EmptyString <-> Js.whitespace_only s = true.
Proof.
  induction s as [|c r IH]; simpl.
  - tauto.
  - destruct (Js.trimEnd r) as [|c' r'] eqn:E.
    + destruct (Js.is_white_space c); simpl.
      * tauto.
      * split; intros H; discriminate H.
    + split; intros H; [discriminate H|].
      apply andb_true_iff in H as [_ H]. apply IH in H. discriminate H.
Qed.

Lemma trimStart_head (s : string) (c : ascii) (r : string) :
  Js.trimStart s = String c r -> Js.is_white_space c = false.
Proof.
  induction s as [|a s IH]; simpl; intros H.
  - discriminate H.
  - destruct (Js.is_white_space a) eqn:E.
    + auto.
    + injection H as -> _. exact E.
Qed.

Lemma trim_empty (s : string) :
  Js.trim s = EmptyString <-> Js.whitespace_only s = true.
Proof.
  unfold Js.trim. rewrite <- trimStart_empty.
  destruct (Js.trimStart s) as [|c r] eqn:E.
  - simpl. tauto.
  - pose proof (trimStart_head _ _ _ E) as Hc.
    split; intros H; [|discriminate H].
    apply trimEnd_empty in H. simpl in H. rewrite Hc in H. discriminate H.
Qed.

Lemma trim_truthy (s : string) :
  Js.truthy (Js.trim s) = negb (Js.whitespace_only s).
Proof.
  destruct (Js.whitespace_only s) eqn:E.
  - apply trim_empty in E. rewrite E. reflexivity.
  - destruct (Js.trim s) eqn:T; [|reflexivity].
    apply trim_empty in T. congruence.
Qed.


Lemma append_cons (c : ascii) (a b : string) : String c a +:+ b = String c (a +:+ b).
Proof. reflexivity. Qed.

Lemma append_empty (b : string) : EmptyString +:+ b = b.
Proof. reflexivity. Qed.

(** What [trim] removes is white space at the two ends, and nothing else. *)
Lemma trimStart_decompose (s : string) :
  exists pre, s = pre +:+ Js.trimStart s /\ Js.whitespace_only pre = true.
Proof.
  induction s as [|c r (pre & Hr & Hpre)]; simpl.
  - exists EmptyString. auto.
  - destruct (Js.is_white_space c) eqn:Ec.
    + exists (String c pre). rewrite append_cons, <- Hr. simpl. rewrite Ec, Hpre. auto.
    + exists EmptyString. auto.
Qed.

Lemma trimEnd_decompose (s : string) :
  exists post, s = Js.trimEnd s +:+ post /\ Js.whitespace_only post = true.
Proof.
  induction s as [|c r (post & Hr & Hpost)]; simpl.
  - exists EmptyString. auto.
  - destruct (Js.trimEnd r) as [|c' r'] eqn:Er.
    + rewrite append_empty in Hr. subst post. destruct (Js.is_white_space c) eqn:Ec.
      * exists (String c r). simpl. rewrite Ec, Hpost. auto.
      * exists r. auto.
    + exists post. split; [|exact Hpost]. rewrite append_cons, <- Hr. reflexivity.
Qed.

Lemma trim_decompose (s : string) :
  exists pre post,
    s = pre +:+ Js.trim s +:+ post /\
    Js.whitespace_only pre = true /\ Js.whitespace_only post = true.
Proof.
  destruct (trimStart_decompose s) as (pre & Hs & Hpre).
  destruct (trimEnd_decompose (Js.trimStart s)) as (post & Ht & Hpost).
  exists pre, post. unfold Js.trim. rewrite <- Ht. auto.
Qed.

Lemma trimEnd_last (s : string) (c : ascii) (r : string) :
  Js.trimEnd s = r +:+ String c EmptyString -> Js.is_white_space c = false.
Proof.
  revert r. induction s as [|a s IH]; simpl; intros r H.
  - destruct r; discriminate H.
  - destruct (Js.trimEnd s) as [|c' r'] eqn:Es.
    + destruct (Js.is_white_space a) eqn:Ea.
      * destruct r; discriminate H.
      * destruct r as [|b r].
        -- rewrite append_empty in H. injection H as <-. exact Ea.
        -- rewrite append_cons in H. injection H as _ H. destruct r; discriminate H.
    + destruct r as [|b r].
      * rewrite append_empty in H. discriminate H.
      * rewrite append_cons in H. injection H as _ H. eapply IH. exact H.
Qed.

Lemma trimEnd_keeps_head (c : ascii) (r : string) :
  Js.is_white_space c = false ->
  exists r', Js.trimEnd (String c r) = String c r'.
Proof.
  intros Hc. simpl. destruct (Js.trimEnd r); rewrite ?Hc; eauto.
Qed.

(** The trimmed string neither starts nor ends with white space. *)
Lemma trim_ends (s : string) :
  (forall c r, Js.trim s = String c r -> Js.is_white_space c = false) /\
  (forall c r, Js.trim s = r +:+ String c EmptyString -> Js.is_white_space c = false).
Proof.
  unfold Js.trim. split.
  - intros c r H. destruct (Js.trimStart s) as [|a t] eqn:Es; [discriminate H|].
    pose proof (trimStart_head _ _ _ Es) as Ha.
    destruct (trimEnd_keeps_head a t Ha) as [r' Hr']. congruence.
  - intros c r. apply trimEnd_last.
Qed.

(** ** Facts about numbers in template literals *)

(** Up to 2^53 a number is printed as its plain decimal. *)
Lemma number_toString_safe (n : Z) :
  Z.abs n <= 2 ^ 53 -> Js.number_toString n = pretty n.
Proof.
  intros Hn. unfold Js.number_toString.
  destruct (Z.leb_spec (Z.abs n) (2 ^ 53)) as [_|Hgt]; [reflexivity|lia].
Qed.

(** Beyond 2^53 it is the nearest Number that is printed, with the fewest
    digits that tell it apart, and in exponent form from 1e21 on. *)
Example number_toString_beyond_safe :
  Js.number_toString (2 ^ 53 + 1) = "9007199254740992" /\
  Js.number_toString (2 ^ 64) = "18446744073709552000" /\
  Js.number_toString (10 ^ 21 - 1) = "1e+21" /\
  Js.number_toString (10 ^ 21) = "1e+21" /\
  Js.number_toString (2 ^ 70) = "1.1805916207174113e+21" /\
  Js.number_toString (- 2 ^ 70) = "-1.1805916207174113e+21" /\
  Js.number_toString ((2 ^ 53 - 1) * 2 ^ 971) = "1.7976931348623157e+308".
Proof. vm_compute. repeat split. Qed.

(** The outpoint of a token: the index in plain decimal while it is at most
    2^53, in exponent form from 1e21 on. *)
Example prevOutpoint_examples :
  prevOutpoint Demo.token_with_beef = "aa1.0" /\
  prevOutpoint (mkToken "hi" (mkTokenData "aa1" 4294967295 "6869" (Some 1) None))
    = "aa1.4294967295" /\
  prevOutpoint (mkToken "hi" (mkTokenData "aa1" (10 ^ 21) "6869" (Some 1) None))
    = "aa1.1e+21".
Proof. vm_compute. repeat split. Qed.

(** ** Runs *)

Section Runs.
Context {sdk : Sdk}.

(** A run only adds to the trace it starts from. *)
Lemma run_extends {A} (w : World) (p : Prog A) (tr : list Event) :
  exists more, snd (run w tr p) = tr ++ more.
Proof.
  revert tr. induction p as [a|e|X c k IH]; intros tr; simpl.
  - exists []. now rewrite app_nil_r.
  - exists []. now rewrite app_nil_r.
  - destruct (w tr X c) as [x|reason].
    + destruct (IH x (tr ++ [Ev c (Resolved x)])) as [more Hmore].
      exists (Ev c (Resolved x) :: more). rewrite Hmore, <- app_assoc. reflexivity.
    + simpl. eauto.
Qed.

(** Sequencing: the second procedure runs on the trace the first one left,
    and only if the first one returned. *)
Lemma run_bind {A B} (w : World) (p : Prog A) (f : A -> Prog B) (tr : list Event) :
  run w tr (bind p f) =
  match run w tr p with
  | (Ok a, tr') => run w tr' (f a)
  | (Thrown e, tr') => (Thrown e, tr')
  end.
Proof.
  revert tr. induction p as [a|e|X c k IH]; intros tr; simpl; try reflexivity.
  destruct (w tr X c) as [x|reason]; [apply IH|reflexivity].
Qed.

(** A procedure that throws at once asks nothing of anyone. *)
Lemma exec_Throw {A} (w : World) (e : Exn) :
  exec w (Throw e : Prog A) = (Thrown e, []).
Proof. reflexivity. Qed.

End Runs.

(** ** Decoding a lookup answer *)

Section Parsing.
Context {sdk : Sdk}.

Lemma map_throwing_Forall2 {A B} (f : A -> Result B) (xs : list A) (ys : list B) :
  map_throwing f xs = Ok ys -> Forall2 (fun x y => f x = Ok y) xs ys.
Proof.
  revert ys. induction xs as [|x rest IH]; simpl; intros ys H.
  - injection H as <-. constructor.
  - destruct (f x) as [y|e] eqn:Fx; simpl in H; [|discriminate H].
    destruct (map_throwing f rest) as [ys'|e] eqn:Frest; simpl in H; [|discriminate H].
    injection H as <-. constructor; auto.
Qed.

Lemma map_throwing_returns {A B} (f : A -> Result B) (xs : list A) :
  Forall (fun x => exists y, f x = Ok y) xs -> exists ys, map_throwing f xs = Ok ys.
Proof.
  induction 1 as [|x rest [y Hy] _ [ys Hys]]; simpl.
  - eauto.
  - rewrite Hy, Hys. simpl. eauto.
Qed.

(** The tokens of an answer come one by one from its outputs, in order. *)
Lemma parseLookupAnswer_tokens (a : LookupAnswer) (ib : option bool)
    (toks : list HelloWorldToken) :
  parseLookupAnswer a ib = Ok toks ->
  exists outs,
    (toks <> [] -> answer_type a = "output-list" /\ answer_outputs a = Some outs) /\
    Forall2 (fun o t => parseOutput ib o = Ok t) outs toks.
Proof.
  unfold parseLookupAnswer. intros H.
  destruct (String.eqb (answer_type a) "output-list") eqn:Ety; simpl in H.
  - apply String.eqb_eq in Ety.
    destruct (answer_outputs a) as [outs|]; [|discriminate H].
    destruct (length outs =? 0)%nat.
    + injection H as <-. exists []. split; [congruence|constructor].
    + exists outs. split; [auto|]. now apply map_throwing_Forall2.
  - injection H as <-. exists []. split; [congruence|constructor].
Qed.

Lemma parseOutput_Ok (ib : option bool) (o : LookupOutput) (t : HelloWorldToken) :
  parseOutput ib o = Ok t ->
  exists tx out data,
    Transaction_fromBEEF (lo_beef o) = Resolved tx /\
    Js.index (Transaction_outputs tx) (lo_outputIndex o) = Some out /\
    PushDrop_decode (to_lockingScript out) = Resolved data /\
    Utils_toUTF8 (head (fields data)) = Resolved (message t) /\
    token t = {| txid := Transaction_id_hex tx;
                 outputIndex := lo_outputIndex o;
                 lockingScript := LockingScript_toHex (to_lockingScript out);
                 satoshis := to_satoshis out;
                 beef := if Js.truthy_bool ib then Some (lo_beef o) else None |}.
Proof.
  unfold parseOutput. intros H.
  destruct (Transaction_fromBEEF (lo_beef o)) as [tx|] eqn:Etx; simpl in H; [|discriminate H].
  destruct (Js.index (Transaction_outputs tx) (lo_outputIndex o)) as [out|] eqn:Eout;
    [|discriminate H].
  destruct (PushDrop_decode (to_lockingScript out)) as [data|] eqn:Edata; simpl in H;
    [|discriminate H].
  destruct (Utils_toUTF8 (head (fields data))) as [text|] eqn:Etext; simpl in H;
    [|discriminate H].
  injection H as <-. exists tx, out, data. simpl. auto.
Qed.

(** C3. An answer whose type is not ['output-list'], and an output list with
    no outputs, decode to the empty array of tokens without an error. *)
Theorem parseLookupAnswer_empty_or_other_shape (a : LookupAnswer) (ib : option bool) :
  answer_type a <> "output-list" \/
    (answer_type a = "output-list" /\ answer_outputs a = Some []) ->
  parseLookupAnswer a ib = Ok [].
Proof.
  unfold parseLookupAnswer. intros [Hty|[Hty Houts]].
  - apply String.eqb_neq in Hty. rewrite Hty. reflexivity.
  - rewrite Hty, Houts. reflexivity.
Qed.

(** C7. Every token of [parseLookupAnswer] gets its message by decoding, as
    UTF-8, the first push-drop field of the locking script of the output it
    comes from, and its [lockingScript] is that same script in hex. *)
Theorem parseLookupAnswer_message_from_script (a : LookupAnswer) (ib : option bool)
    (toks : list HelloWorldToken) :
  parseLookupAnswer a ib = Ok toks ->
  exists outs,
    (toks <> [] -> answer_type a = "output-list" /\ answer_outputs a = Some outs) /\
    Forall2 (fun o t =>
      exists tx out data,
        Transaction_fromBEEF (lo_beef o) = Resolved tx /\
        Js.index (Transaction_outputs tx) (lo_outputIndex o) = Some out /\
        PushDrop_decode (to_lockingScript out) = Resolved data /\
        Utils_toUTF8 (head (fields data)) = Resolved (message t) /\
        lockingScript (token t) = LockingScript_toHex (to_lockingScript out))
      outs toks.
Proof.
  intros H. destruct (parseLookupAnswer_tokens _ _ _ H) as (outs & Hsrc & Hall).
  exists outs. split; [exact Hsrc|].
  eapply Forall2_impl; [exact Hall|].
  intros o t Ht. destruct (parseOutput_Ok _ _ _ Ht) as (tx & out & data & ? & ? & ? & ? & Htok).
  exists tx, out, data. rewrite Htok. simpl. auto.
Qed.

(** The tokens of an output list are decoded from its own outputs, one for
    one; any other answer gives no token. *)
Lemma parseLookupAnswer_per_output (a : LookupAnswer) (ib : option bool)
    (toks : list HelloWorldToken) :
  parseLookupAnswer a ib = Ok toks ->
  (answer_type a <> "output-list" -> toks = []) /\
  (forall outs, answer_type a = "output-list" -> answer_outputs a = Some outs ->
     Forall2 (fun o t => parseOutput ib o = Ok t) outs toks).
Proof.
  unfold parseLookupAnswer. intros H. split.
  - intros Hty. apply String.eqb_neq in Hty. rewrite Hty in H. simpl in H. congruence.
  - intros outs Hty Houts. rewrite Hty, Houts in H. simpl in H.
    destruct outs as [|o outs].
    + simpl in H. injection H as <-. constructor.
    + now apply map_throwing_Forall2.
Qed.

(** C8. For every output of an output-list answer, taken in order, the token
    decoded from it carries that output's proof bundle exactly when the caller
    passed [includeBeef] as [true]; otherwise it has no [beef] field.  There is
    one token for each output, and an answer of another shape has no token. *)
Theorem parseLookupAnswer_beef_iff_requested (a : LookupAnswer) (ib : option bool)
    (toks : list HelloWorldToken) :
  parseLookupAnswer a ib = Ok toks ->
  (answer_type a <> "output-list" -> toks = []) /\
  (forall outs, answer_type a = "output-list" -> answer_outputs a = Some outs ->
     length toks = length outs /\
     Forall2 (fun o t =>
       (ib = Some true -> beef (token t) = Some (lo_beef o)) /\
       (ib <> Some true -> beef (token t) = None))
       outs toks).
Proof.
  intros H. destruct (parseLookupAnswer_per_output _ _ _ H) as [Hother Hlist].
  split; [exact Hother|].
  intros outs Hty Houts. specialize (Hlist outs Hty Houts). split.
  - symmetry. eapply Forall2_length. exact Hlist.
  - eapply Forall2_impl; [exact Hlist|].
    intros o t Ht.
    destruct (parseOutput_Ok _ _ _ Ht) as (tx & out & data & _ & _ & _ & _ & Htok).
    rewrite Htok. simpl. split.
    + intros ->. reflexivity.
    + intros Hib. destruct ib as [[|]|]; simpl; congruence.
Qed.

(** Decoding returns whenever the library decodes every output. *)
Lemma parseLookupAnswer_returns (a : LookupAnswer) (ib : option bool)
    (outs : list LookupOutput) :
  answer_type a = "output-list" -> answer_outputs a = Some outs ->
  Forall (fun o => exists t, parseOutput ib o = Ok t) outs ->
  exists toks, parseLookupAnswer a ib = Ok toks /\ length toks = length outs.
Proof.
  intros Hty Houts Hall. unfold parseLookupAnswer. rewrite Hty, Houts. simpl.
  destruct outs as [|o rest]; [simpl; eauto|].
  destruct (map_throwing_returns _ _ Hall) as [toks Htoks].
  cbn [length Nat.eqb]. rewrite Htoks. exists toks. split; [reflexivity|].
  apply map_throwing_Forall2 in Htoks. apply Forall2_length in Htoks. symmetry. exact Htoks.
Qed.

End Parsing.

(** ** The query object *)

Ltac query_cases p :=
  unfold queryTokens_query;
  destruct (Params.message p) as [?m|]; [destruct (Js.truthy (Js.trim _))|];
  (destruct (Params.startDate p) as [?s|]; [destruct (Js.truthy _)|]);
  (destruct (Params.endDate p) as [?e|]; [destruct (Js.truthy _)|]);
  try reflexivity.

Lemma query_limit (p : Params.t) :
  queryTokens_query p !! "limit" = Some (QNum (Params.limit p)).
Proof. query_cases p. Qed.

Lemma query_skip (p : Params.t) :
  queryTokens_query p !! "skip" = Some (QNum (Js.nullish (Params.skip p) 0)).
Proof. query_cases p. Qed.

Lemma query_sortOrder (p : Params.t) :
  queryTokens_query p !! "sortOrder" =
  Some (QStr (SortOrder_string (Js.nullish (Params.sortOrder p) desc))).
Proof. query_cases p. Qed.

Lemma query_message (p : Params.t) :
  queryTokens_query p !! "message" =
  match Params.message p with
  | Some m => if Js.whitespace_only m then None else Some (QStr (Js.trim m))
  | None => None
  end.
Proof.
  unfold queryTokens_query.
  destruct (Params.message p) as [m|];
    [rewrite trim_truthy; destruct (Js.whitespace_only m); simpl|];
  (destruct (Params.startDate p) as [s|]; [destruct (Js.truthy s)|]);
  (destruct (Params.endDate p) as [e|]; [destruct (Js.truthy e)|]);
  reflexivity.
Qed.

Lemma query_startDate (p : Params.t) :
  queryTokens_query p !! "startDate" =
  match Params.startDate p with
  | Some d => if Js.truthy d then Some (QStr (d +:+ "T00:00:00.000Z")) else None
  | None => None
  end.
Proof. query_cases p. Qed.

Lemma query_endDate (p : Params.t) :
  queryTokens_query p !! "endDate" =
  match Params.endDate p with
  | Some d => if Js.truthy d then Some (QStr (d +:+ "T23:59:59.999Z")) else None
  | None => None
  end.
Proof. query_cases p. Qed.

Lemma truthy_nonempty (s : string) : s <> EmptyString -> Js.truthy s = true.
Proof. destruct s; [congruence|reflexivity]. Qed.


Section Querying.
Context {sdk : Sdk}.

(** [queryTokens] asks the resolver once, and nothing else. *)
Lemma queryTokens_asks_once (w : World) (params : Params.t) (opts_arg : option Opts.t) :
  let opts := Js.nullish opts_arg Opts.empty in
  queries (trace w (queryTokens params opts_arg)) =
    [ (Js.nullish (Opts.resolver opts)
         (LookupResolver_new (Js.nullish (Opts.network opts) mainnet)),
       {| service := "ls_helloworld_bitspv"; query := queryTokens_query params |},
       Js.nullish (Opts.timeout opts) 10000) ] /\
  length (trace w (queryTokens params opts_arg)) = 1%nat.
Proof.
  unfold trace, exec, queryTokens. simpl.
  match goal with |- context [w [] ?X ?c] => destruct (w [] X c) as [answer|reason] end;
    simpl.
  - destruct (parseLookupAnswer answer _); simpl; auto.
  - auto.
Qed.

Lemma queryTokens_sends (w : World) (params : Params.t) (opts_arg : option Opts.t) :
  sent_queries (trace w (queryTokens params opts_arg)) = [ queryTokens_query params ].
Proof.
  unfold sent_queries.
  destruct (queryTokens_asks_once w params opts_arg) as [-> _]. reflexivity.
Qed.

End Querying.

Section QueryClaims.
Context {sdk : Sdk}.

(** C4. A calendar date given as [startDate] goes out as the first instant
    of that day, one given as [endDate] as its last millisecond; a date that
    is not given leaves no key in the query object. *)
Theorem queryTokens_date_bounds (w : World) (params : Params.t) (opts_arg : option Opts.t) :
  exists q,
    sent_queries (trace w (queryTokens params opts_arg)) = [q] /\
    (forall d, Params.startDate params = Some d -> d <> EmptyString ->
       q !! "startDate" = Some (QStr (d +:+ "T00:00:00.000Z"))) /\
    (forall d, Params.endDate params = Some d -> d <> EmptyString ->
       q !! "endDate" = Some (QStr (d +:+ "T23:59:59.999Z"))) /\
    (Params.startDate params = None -> q !! "startDate" = None) /\
    (Params.endDate params = None -> q !! "endDate" = None).
Proof.
  exists (queryTokens_query params). split; [apply queryTokens_sends|].
  rewrite query_startDate, query_endDate.
  split; [|split; [|split]].
  - intros d -> Hd. now rewrite truthy_nonempty.
  - intros d -> Hd. now rewrite truthy_nonempty.
  - now intros ->.
  - now intros ->.
Qed.

(** The empty string is falsy: given as a date, it leaves no key either. *)
Lemma queryTokens_empty_date_omitted (params : Params.t) :
  (Params.startDate params = Some EmptyString ->
     queryTokens_query params !! "startDate" = None) /\
  (Params.endDate params = Some EmptyString ->
     queryTokens_query params !! "endDate" = None).
Proof.
  rewrite query_startDate, query_endDate. split; now intros ->.
Qed.

(** C5. Without a message, or with one that is empty or white space only, the
    query object has no [message] key; otherwise the key holds the trimmed
    message, which is not empty. *)
Theorem queryTokens_message_filter (w : World) (params : Params.t)
    (opts_arg : option Opts.t) :
  exists q,
    sent_queries (trace w (queryTokens params opts_arg)) = [q] /\
    (Params.message params = None -> q !! "message" = None) /\
    (forall m, Params.message params = Some m -> Js.whitespace_only m = true ->
       q !! "message" = None) /\
    (forall m, Params.message params = Some m -> Js.whitespace_only m = false ->
       q !! "message" = Some (QStr (Js.trim m)) /\ Js.trim m <> EmptyString).
Proof.
  exists (queryTokens_query params). split; [apply queryTokens_sends|].
  rewrite query_message. split; [|split].
  - now intros ->.
  - intros m -> Hws. now rewrite Hws.
  - intros m -> Hws. rewrite Hws. split; [reflexivity|].
    intros Hempty. apply trim_empty in Hempty. congruence.
Qed.

(** C9. The defaults of [queryTokens]: [skip] 0, [sortOrder] ['desc'], a
    standard resolver on the given network or on mainnet, a timeout of 10000;
    the question always goes to [ls_helloworld_bitspv]. *)
Theorem queryTokens_defaults (w : World) (params : Params.t) (opts_arg : option Opts.t) :
  exists r q t,
    queries (trace w (queryTokens params opts_arg)) = [ (r, q, t) ] /\
    service q = "ls_helloworld_bitspv" /\
    query q !! "limit" = Some (QNum (Params.limit params)) /\
    (Params.skip params = None -> query q !! "skip" = Some (QNum 0)) /\
    (Params.sortOrder params = None -> query q !! "sortOrder" = Some (QStr "desc")) /\
    (opts_arg ≫= Opts.resolver = None -> opts_arg ≫= Opts.network = None ->
       r = LookupResolver_new mainnet) /\
    (forall n, opts_arg ≫= Opts.resolver = None -> opts_arg ≫= Opts.network = Some n ->
       r = LookupResolver_new n) /\
    (forall r', opts_arg ≫= Opts.resolver = Some r' -> r = r') /\
    (opts_arg ≫= Opts.timeout = None -> t = 10000) /\
    (forall t', opts_arg ≫= Opts.timeout = Some t' -> t = t').
Proof.
  destruct (queryTokens_asks_once w params opts_arg) as [Hq _].
  eexists _, _, _. split; [exact Hq|]. simpl.
  rewrite query_limit, query_skip, query_sortOrder.
  destruct opts_arg as [[res net tmo ib]|]; simpl;
    repeat split; intros; subst; simpl in *; try congruence;
    repeat match goal with H : _ = _ |- _ => rewrite H end; reflexivity.
Qed.

(** C6. [findTokenByMessage] is [queryTokens] with the message as the filter,
    the given limit or else 100, and order ['desc']; the query object that
    goes out carries that limit and that order. *)
Theorem findTokenByMessage_limit_and_order (w : World) (msg : string)
    (opts_arg : option FindOpts.t) :
  let opts := Js.nullish opts_arg FindOpts.empty in
  exec w (findTokenByMessage msg opts_arg) =
    exec w (queryTokens
              (Params.mk (Js.nullish (FindOpts.limit opts) 100) None (Some desc)
                         (Some msg) None None)
              (Some (Opts.mk (FindOpts.resolver opts) (FindOpts.network opts)
                             (FindOpts.timeout opts) (FindOpts.includeBeef opts)))) /\
  exists q,
    sent_queries (trace w (findTokenByMessage msg opts_arg)) = [q] /\
    (opts_arg ≫= FindOpts.limit = None -> q !! "limit" = Some (QNum 100)) /\
    (forall l, opts_arg ≫= FindOpts.limit = Some l -> q !! "limit" = Some (QNum l)) /\
    q !! "sortOrder" = Some (QStr "desc") /\
    q !! "skip" = Some (QNum 0) /\
    (Js.whitespace_only msg = false -> q !! "message" = Some (QStr (Js.trim msg))).
Proof.
  split; [reflexivity|].
  unfold findTokenByMessage. eexists. split; [apply queryTokens_sends|].
  rewrite query_limit, query_skip, query_sortOrder, query_message. simpl.
  destruct opts_arg as [[res net tmo ib lim]|]; simpl; repeat split;
    intros; subst; try congruence; try reflexivity;
    match goal with H : Js.whitespace_only _ = false |- _ => now rewrite H end.
Qed.


End QueryClaims.

(** ** Spending a token *)

Section Spending.
Context {sdk : Sdk}.

(** One step of a run: split on the answer the run waits for. *)
Ltac answer :=
  match goal with
  | |- context [run ?w ?tr (bind (lift ?r) _)] =>
      let E := fresh "Elib" in destruct r eqn:E; cbn [run bind lift call]
  | |- context [match ?w ?tr ?X ?c with Resolved _ => _ | Rejected _ => _ end] =>
      let E := fresh "Eans" in destruct (w tr X c) eqn:E; cbn [run bind lift call]
  | |- context [match signableTransaction ?x with Some _ => _ | None => _ end] =>
      let E := fresh "Esig" in destruct (signableTransaction x) eqn:E; cbn [run bind lift call]
  | |- context [match sar_tx ?x with Some _ => _ | None => _ end] =>
      let E := fresh "Etx" in destruct (sar_tx x) eqn:E; cbn [run bind lift call]
  end.

(** Read off a finished run. *)
Ltac settle :=
  simpl; intros;
  repeat match goal with
         | H : _ \/ _ |- _ => destruct H
         | H : _ /\ _ |- _ => destruct H
         | H : ex _ |- _ => destruct H
         | H : False |- _ => destruct H
         end;
  subst; try discriminate; try congruence; eauto 8.

(** Without a proof bundle [updateToken] stops at its guard: nothing is asked
    of the wallet, nothing is signed, nothing is broadcast. *)
Lemma updateToken_requires_proof (w : World) (prevToken : HelloWorldToken)
    (newMessage : string) (wallet_arg : option WalletInterface) :
  beef (token prevToken) = None ->
  exec w (updateToken prevToken newMessage wallet_arg) = (Thrown MissingProofError, []).
Proof. intros Hb. unfold exec, updateToken. rewrite Hb. reflexivity. Qed.

(** X1. [createToken] broadcasts only a transaction the wallet built: without
    one it throws the construction error and the broadcaster is never reached. *)
Lemma createToken_needs_transaction (w : World) (msg : string)
    (wallet_arg : option WalletInterface) :
  (forall res, In res (created (trace w (createToken msg wallet_arg))) ->
     car_tx res = None ->
     outcome w (createToken msg wallet_arg) = Thrown ConstructionError /\
     happened KBroadcast (trace w (createToken msg wallet_arg)) = false) /\
  (happened KBroadcast (trace w (createToken msg wallet_arg)) = true ->
     exists res tx, created (trace w (createToken msg wallet_arg)) = [res] /\
                    car_tx res = Some tx).
Proof.
  unfold trace, outcome, exec, createToken. cbn [run bind lift call].
  repeat answer;
    try (destruct (car_tx _) eqn:Etx; cbn [run bind lift call]; repeat answer).
  all: split; settle.
Qed.

(** C2, as the code has it.  [updateToken] signs only when [createAction]
    gave a signable transaction; without one it throws the signing error and
    neither signs nor broadcasts, whether or not a finished transaction came
    back; it broadcasts only after [signAction] gave a finished transaction;
    the signing error is thrown in exactly these two cases. *)
Theorem updateToken_signing_phase (w : World) (prevToken : HelloWorldToken)
    (newMessage : string) (wallet_arg : option WalletInterface) :
  let r := outcome w (updateToken prevToken newMessage wallet_arg) in
  let tr := trace w (updateToken prevToken newMessage wallet_arg) in
  (happened KUnlockSign tr = true \/ happened KSignAction tr = true ->
     exists res st, created tr = [res] /\ signableTransaction res = Some st) /\
  (forall res, In res (created tr) -> signableTransaction res = None ->
     r = Thrown SigningError /\
     happened KUnlockSign tr = false /\ happened KSignAction tr = false /\
     happened KBroadcast tr = false) /\
  (happened KBroadcast tr = true ->
     exists res tx, signed tr = [res] /\ sar_tx res = Some tx) /\
  (r = Thrown SigningError <->
     (exists res, In res (created tr) /\ signableTransaction res = None) \/
     (exists res, In res (signed tr) /\ sar_tx res = None)).
Proof.
  unfold trace, outcome, exec, updateToken.
  destruct (beef (token prevToken)) as [b|]; cbn [run bind lift call].
  2: { unfold MissingProofError, SigningError. split; [|split; [|split; [|split]]]; settle. }
  repeat answer.
  all: unfold SigningError; (split; [|split; [|split; [|split]]]); settle.
Qed.

(** C1, at the failing call.  For a token without its proof bundle
    [updateToken] stops at its guard with the missing-proof error and an empty
    trace.  [redeemToken] has no such guard: it never ends in that error; the
    absent bundle goes to the library's parser, and if the parser throws, that
    foreign error is the outcome, while if it returns, the wallet is asked to
    create the spending action. *)
Theorem missing_proof_guard_in_update_only (w : World) (tok : HelloWorldToken)
    (newMessage : string) (wallet_arg : option WalletInterface) (wallet : WalletInterface) :
  beef (token tok) = None ->
  exec w (updateToken tok newMessage wallet_arg) = (Thrown MissingProofError, []) /\
  outcome w (redeemToken tok wallet) <> Thrown MissingProofError /\
  (forall reason, Beef_fromBinary None = Rejected reason ->
     exec w (redeemToken tok wallet) = (Thrown (Foreign reason), [])) /\
  (forall b, Beef_fromBinary None = Resolved b ->
     create_calls (trace w (redeemToken tok wallet)) =
       [ (wallet,
          {| description := "Redeem HelloWorld token";
             inputBEEF := Some (Beef_toBinary b);
             inputs := Some [ spend_input tok ];
             outputs := None;
             options := spend_options |}) ]).
Proof.
  intros Hb. split; [now apply updateToken_requires_proof|].
  unfold trace, outcome, exec, redeemToken. rewrite Hb.
  repeat answer.
  all: unfold SigningError, MissingProofError; (split; [|split]); settle.
Qed.

End Spending.

(** ** The examples *)

(** A wallet that hands back a signable transaction and then signs it: the
    update goes all the way to the broadcast. *)
Example updateToken_two_phase_run :
  outcome (Demo.plain_world (Resolved Demo.signable_answer)
                       (Resolved {| sar_tx := Some [9] |}))
          (updateToken Demo.token_with_beef "bye" (Some Demo.wallet))
    = Ok (BroadcastResponse "aa1" "accepted") /\
  map kind_of
      (trace (Demo.plain_world (Resolved Demo.signable_answer)
                          (Resolved {| sar_tx := Some [9] |}))
             (updateToken Demo.token_with_beef "bye" (Some Demo.wallet)))
    = [KLock; KCreateAction; KUnlockSign; KSignAction; KGetNetwork; KBroadcast].
Proof. split; reflexivity. Qed.

(** C2 as stated fails: the wallet answers [createAction] with a finished
    transaction and no signable one; [updateToken] throws the signing error
    after the two requests below, and never broadcasts. *)
Lemma updateToken_final_tx_not_broadcast :
  car_tx Demo.final_tx_answer = Some [1; 2; 3] /\
  created (trace (Demo.plain_world (Resolved Demo.final_tx_answer) (Rejected "not asked"))
                 (updateToken Demo.token_with_beef "bye" (Some Demo.wallet)))
    = [ Demo.final_tx_answer ] /\
  outcome (Demo.plain_world (Resolved Demo.final_tx_answer) (Rejected "not asked"))
          (updateToken Demo.token_with_beef "bye" (Some Demo.wallet))
    = Thrown SigningError /\
  map kind_of
      (trace (Demo.plain_world (Resolved Demo.final_tx_answer) (Rejected "not asked"))
             (updateToken Demo.token_with_beef "bye" (Some Demo.wallet)))
    = [KLock; KCreateAction].
Proof. repeat split; reflexivity. Qed.

(** The amended C2 at that same run. *)
Lemma updateToken_signing_phase_witness :
  outcome (Demo.plain_world (Resolved Demo.final_tx_answer) (Rejected "not asked"))
          (updateToken Demo.token_with_beef "bye" (Some Demo.wallet))
    = Thrown SigningError /\
  happened KBroadcast
      (trace (Demo.plain_world (Resolved Demo.final_tx_answer) (Rejected "not asked"))
             (updateToken Demo.token_with_beef "bye" (Some Demo.wallet)))
    = false.
Proof.
  pose proof (updateToken_signing_phase
                (Demo.plain_world (Resolved Demo.final_tx_answer) (Rejected "not asked"))
                Demo.token_with_beef "bye" (Some Demo.wallet)) as (_ & H & _).
  destruct (H Demo.final_tx_answer) as (Hr & _ & _ & Hb).
  - left. reflexivity.
  - reflexivity.
  - split; [exact Hr | exact Hb].
Defined.

(** C1 at the failing call, with a parser that refuses an absent bundle:
    [redeemToken] ends in the parser's error, not in the missing-proof error. *)
Lemma missing_proof_guard_in_update_only_witness :
  exec (Demo.plain_world (Resolved Demo.signable_answer) (Resolved {| sar_tx := Some [9] |}))
       (updateToken Demo.token_without_beef "bye" (Some Demo.wallet))
    = (Thrown MissingProofError, []) /\
  exec (Demo.plain_world (Resolved Demo.signable_answer) (Resolved {| sar_tx := Some [9] |}))
       (redeemToken Demo.token_without_beef Demo.wallet)
    = (Thrown (Foreign "Serialized BEEF must start with a version number"), []).
Proof.
  pose proof (missing_proof_guard_in_update_only
                (Demo.plain_world (Resolved Demo.signable_answer)
                             (Resolved {| sar_tx := Some [9] |}))
                Demo.token_without_beef "bye" (Some Demo.wallet) Demo.wallet eq_refl)
    as (Hu & _ & Hr & _).
  split; [exact Hu | exact (Hr _ eq_refl)].
Defined.

(** The same call with a parser that lets the absent bundle through: the
    token is spent and the spend is broadcast, with no proof ever given. *)
Example redeemToken_without_proof_reaches_the_network :
  outcome (Demo.world Demo.lenient_sdk [104; 105] [71]
             (Resolved Demo.signable_answer) (Resolved {| sar_tx := Some [9] |})
             (Rejected "not asked"))
          (redeemToken Demo.token_without_beef Demo.wallet)
    = Ok (BroadcastResponse "aa1" "accepted") /\
  map kind_of
      (trace (Demo.world Demo.lenient_sdk [104; 105] [71]
                (Resolved Demo.signable_answer) (Resolved {| sar_tx := Some [9] |})
                (Rejected "not asked"))
             (redeemToken Demo.token_without_beef Demo.wallet))
    = [KCreateAction; KUnlockSign; KSignAction; KGetNetwork; KBroadcast].
Proof. split; reflexivity. Qed.

(** C3 on a free-form answer and on an empty output list. *)
Lemma parseLookupAnswer_empty_or_other_shape_witness :
  parseLookupAnswer (sdk := Demo.sdk) Demo.freeform_answer (Some true) = Ok [] /\
  parseLookupAnswer (sdk := Demo.sdk) Demo.empty_answer None = Ok [].
Proof.
  split; apply parseLookupAnswer_empty_or_other_shape.
  - left. discriminate.
  - right. split; reflexivity.
Defined.

(** What the toy library decodes from the one-output answer. *)
Example parseLookupAnswer_hello :
  parseLookupAnswer (sdk := Demo.sdk) Demo.hello_answer None
    = Ok [ Demo.token_without_beef ] /\
  parseLookupAnswer (sdk := Demo.sdk) Demo.hello_answer (Some true)
    = Ok [ Demo.token_with_beef ].
Proof. split; reflexivity. Qed.

(** C7 on the one-output answer. *)
Lemma parseLookupAnswer_message_from_script_witness :
  exists outs,
    ([ Demo.token_without_beef ] <> [] ->
       answer_type Demo.hello_answer = "output-list" /\
       answer_outputs Demo.hello_answer = Some outs) /\
    Forall2 (fun o t =>
      exists (tx : @Transaction Demo.sdk)
             (out : TransactionOutput (@LockingScript Demo.sdk)) data,
        Transaction_fromBEEF (lo_beef o) = Resolved tx /\
        Js.index (Transaction_outputs tx) (lo_outputIndex o) = Some out /\
        PushDrop_decode (to_lockingScript out) = Resolved data /\
        @Utils_toUTF8 Demo.sdk (head (fields data)) = Resolved (message t) /\
        lockingScript (token t) = LockingScript_toHex (to_lockingScript out))
      outs [ Demo.token_without_beef ].
Proof.
  apply (parseLookupAnswer_message_from_script (sdk := Demo.sdk) Demo.hello_answer None).
  reflexivity.
Defined.

(** C8 on an answer of two outputs, with and without [includeBeef]. *)
Lemma parseLookupAnswer_beef_iff_requested_witness :
  (length Demo.two_tokens_with_beef = length Demo.two_outputs /\
   Forall2 (fun o t =>
     (Some true = Some true -> beef (token t) = Some (lo_beef o)) /\
     (Some true <> Some true -> beef (token t) = None))
     Demo.two_outputs Demo.two_tokens_with_beef) /\
  (length Demo.two_tokens_without_beef = length Demo.two_outputs /\
   Forall2 (fun o t =>
     (Some false = Some true -> beef (token t) = Some (lo_beef o)) /\
     (Some false <> Some true -> beef (token t) = None))
     Demo.two_outputs Demo.two_tokens_without_beef).
Proof.
  split.
  - apply (proj2 (parseLookupAnswer_beef_iff_requested (sdk := Demo.sdk)
                    Demo.two_output_answer (Some true) Demo.two_tokens_with_beef
                    eq_refl)
                 Demo.two_outputs eq_refl eq_refl).
  - apply (proj2 (parseLookupAnswer_beef_iff_requested (sdk := Demo.sdk)
                    Demo.two_output_answer (Some false) Demo.two_tokens_without_beef
                    eq_refl)
                 Demo.two_outputs eq_refl eq_refl).
Defined.

(** C4 on the first of January 2024. *)
Lemma queryTokens_date_bounds_witness :
  exists q,
    sent_queries
      (trace (Demo.query_world Demo.hello_answer)
             (queryTokens (Params.mk 10 None None None (Some "2024-01-01")
                                     (Some "2024-01-01")) None)) = [q] /\
    q !! "startDate" = Some (QStr "2024-01-01T00:00:00.000Z") /\
    q !! "endDate" = Some (QStr "2024-01-01T23:59:59.999Z").
Proof.
  destruct (queryTokens_date_bounds (Demo.query_world Demo.hello_answer)
              (Params.mk 10 None None None (Some "2024-01-01") (Some "2024-01-01")) None)
    as (q & Hq & Hs & He & _).
  exists q. split; [exact Hq|]. split.
  - apply (Hs "2024-01-01"); [reflexivity|discriminate].
  - apply (He "2024-01-01"); [reflexivity|discriminate].
Defined.

(** C5 on a padded message and on a blank one. *)
Lemma queryTokens_message_filter_witness :
  (exists q,
     sent_queries
       (trace (Demo.query_world Demo.hello_answer)
              (queryTokens (Params.mk 10 None None (Some "  hi there ") None None) None))
       = [q] /\
     q !! "message" = Some (QStr "hi there")) /\
  (exists q,
     sent_queries
       (trace (Demo.query_world Demo.hello_answer)
              (queryTokens (Params.mk 10 None None (Some "   ") None None) None))
       = [q] /\
     q !! "message" = None).
Proof.
  split.
  - destruct (queryTokens_message_filter (Demo.query_world Demo.hello_answer)
                (Params.mk 10 None None (Some "  hi there ") None None) None)
      as (q & Hq & _ & _ & Hm).
    exists q. split; [exact Hq|]. exact (proj1 (Hm _ eq_refl eq_refl)).
  - destruct (queryTokens_message_filter (Demo.query_world Demo.hello_answer)
                (Params.mk 10 None None (Some "   ") None None) None)
      as (q & Hq & _ & Hm & _).
    exists q. split; [exact Hq|]. exact (Hm _ eq_refl eq_refl).
Defined.

(** C9 with every optional parameter left out. *)
Lemma queryTokens_defaults_witness :
  exists q,
    queries (trace (Demo.query_world Demo.hello_answer)
                   (queryTokens (Params.mk 10 None None None None None) None))
      = [ (LookupResolver_new mainnet, q, 10000) ] /\
    service q = "ls_helloworld_bitspv" /\
    query q !! "skip" = Some (QNum 0) /\
    query q !! "sortOrder" = Some (QStr "desc").
Proof.
  destruct (queryTokens_defaults (Demo.query_world Demo.hello_answer)
              (Params.mk 10 None None None None None) None)
    as (r & q & t & Hq & Hsvc & _ & Hskip & Hsort & Hres & _ & _ & Htmo & _).
  exists q. rewrite Hq, (Hres eq_refl eq_refl), (Htmo eq_refl).
  split; [reflexivity|]. split; [exact Hsvc|]. split; [exact (Hskip eq_refl)|].
  exact (Hsort eq_refl).
Defined.

(** C6 without options, and with a limit of 5. *)
Lemma findTokenByMessage_limit_and_order_witness :
  (exists q,
     sent_queries (trace (Demo.query_world Demo.hello_answer)
                         (findTokenByMessage "hi" None)) = [q] /\
     q !! "limit" = Some (QNum 100) /\ q !! "sortOrder" = Some (QStr "desc") /\
     q !! "message" = Some (QStr "hi")) /\
  (exists q,
     sent_queries (trace (Demo.query_world Demo.hello_answer)
                         (findTokenByMessage "hi"
                            (Some (FindOpts.mk None None None None (Some 5))))) = [q] /\
     q !! "limit" = Some (QNum 5)).
Proof.
  split.
  - destruct (findTokenByMessage_limit_and_order (Demo.query_world Demo.hello_answer)
                "hi" None) as (_ & q & Hq & Hdef & _ & Hord & _ & Hmsg).
    exists q. split; [exact Hq|]. split; [exact (Hdef eq_refl)|].
    split; [exact Hord|]. exact (Hmsg eq_refl).
  - destruct (findTokenByMessage_limit_and_order (Demo.query_world Demo.hello_answer)
                "hi" (Some (FindOpts.mk None None None None (Some 5))))
      as (_ & q & Hq & _ & Hlim & _).
    exists q. split; [exact Hq|]. exact (Hlim 5 eq_refl).
Defined.


(** A blank message brings back whatever the service lists: here the token
    that says "hi", though the caller asked for the message of three spaces. *)
Example findTokenByMessage_blank_returns_other_tokens :
  outcome (Demo.query_world Demo.hello_answer) (findTokenByMessage "   " None)
    = Ok [ Demo.token_without_beef ].
Proof. reflexivity. Qed.

(** ** More on the three spending operations *)

(** One step of a run: split on the answer the run waits for, or on the
    field of an answer the code tests. *)
Ltac await_answer :=
  match goal with
  | |- context [run ?w ?tr (bind (lift ?r) _)] =>
      let E := fresh "Elib" in destruct r eqn:E; cbn [run bind lift call]
  | |- context [match ?w ?tr ?X ?c with Resolved _ => _ | Rejected _ => _ end] =>
      let E := fresh "Eans" in destruct (w tr X c) eqn:E; cbn [run bind lift call]
  | |- context [match signableTransaction ?x with Some _ => _ | None => _ end] =>
      let E := fresh "Esig" in
      destruct (signableTransaction x) eqn:E; cbn [run bind lift call]
  | |- context [match sar_tx ?x with Some _ => _ | None => _ end] =>
      let E := fresh "Etx" in destruct (sar_tx x) eqn:E; cbn [run bind lift call]
  | |- context [match car_tx ?x with Some _ => _ | None => _ end] =>
      let E := fresh "Etx" in destruct (car_tx x) eqn:E; cbn [run bind lift call]
  end.

(** Read a property off a finished run. *)
Ltac read_off :=
  simpl; intros;
  repeat match goal with
         | H : _ \/ _ |- _ => destruct H
         | H : _ /\ _ |- _ => destruct H
         | H : ex _ |- _ => destruct H
         | H : False |- _ => destruct H
         end;
  simplify_eq/=; try discriminate; try congruence; eauto 12.

Ltac run_createToken :=
  unfold trace, outcome, exec, createToken; cbn [run bind lift call];
  repeat await_answer.

Ltac run_updateToken tok :=
  unfold trace, outcome, exec, updateToken;
  destruct (beef (token tok)) as [?bundle|] eqn:?Ebeef; cbn [run bind lift call];
  repeat await_answer.

Ltac run_redeemToken :=
  unfold trace, outcome, exec, redeemToken; cbn [run bind lift call];
  repeat await_answer.

Section SpendingMore.
Context {sdk : Sdk}.

(** X2. [redeemToken] has the two-phase signing of [updateToken]: it signs
    only after [createAction] gave a signable transaction, throws the signing
    error without signing or broadcasting when none came back, broadcasts only
    after [signAction] gave a finished transaction, and throws the signing
    error in exactly these two cases. *)
Theorem redeemToken_signing_phase (w : World) (tok : HelloWorldToken)
    (wallet : WalletInterface) :
  let r := outcome w (redeemToken tok wallet) in
  let tr := trace w (redeemToken tok wallet) in
  (happened KUnlockSign tr = true \/ happened KSignAction tr = true ->
     exists res st, created tr = [res] /\ signableTransaction res = Some st) /\
  (forall res, In res (created tr) -> signableTransaction res = None ->
     r = Thrown SigningError /\
     happened KUnlockSign tr = false /\ happened KSignAction tr = false /\
     happened KBroadcast tr = false) /\
  (happened KBroadcast tr = true ->
     exists res tx, signed tr = [res] /\ sar_tx res = Some tx) /\
  (r = Thrown SigningError <->
     (exists res, In res (created tr) /\ signableTransaction res = None) \/
     (exists res, In res (signed tr) /\ sar_tx res = None)).
Proof.
  run_redeemToken.
  all: unfold SigningError; (split; [|split; [|split; [|split]]]); read_off.
Qed.

(** X3. No operation asks twice, retries, or asks out of turn: the requests
    of a run are an initial part of one fixed sequence per operation, and
    none of the three ever asks the lookup resolver. *)
Theorem spending_requests_in_order (w : World) (tok : HelloWorldToken) (msg : string)
    (wallet_arg : option WalletInterface) (wallet : WalletInterface) :
  map kind_of (trace w (createToken msg wallet_arg))
    `prefix_of` [KLock; KCreateAction; KBroadcast] /\
  map kind_of (trace w (updateToken tok msg wallet_arg))
    `prefix_of` [KLock; KCreateAction; KUnlockSign; KSignAction; KGetNetwork; KBroadcast] /\
  map kind_of (trace w (redeemToken tok wallet))
    `prefix_of` [KCreateAction; KUnlockSign; KSignAction; KGetNetwork; KBroadcast].
Proof.
  split; [|split].
  - run_createToken; simpl; by eexists.
  - run_updateToken tok; simpl; by eexists.
  - run_redeemToken; simpl; by eexists.
Qed.

(** X4. [createToken] broadcasts on the fixed topic with the ['local'] network
    preset, whatever network the wallet is on, and what it broadcasts is the
    transaction the wallet built.  [updateToken] and [redeemToken] broadcast on
    the same topic, with the preset the wallet named as its network, and what
    they broadcast is the transaction [signAction] finished. *)
Theorem broadcast_destination (w : World) (tok : HelloWorldToken) (msg : string)
    (wallet_arg : option WalletInterface) (wallet : WalletInterface) :
  (forall topics np tx,
     In (topics, np, tx) (broadcasts (trace w (createToken msg wallet_arg))) ->
     topics = ["tm_helloworld_bitspv"] /\ np = local /\
     exists res atomic,
       created (trace w (createToken msg wallet_arg)) = [res] /\
       car_tx res = Some atomic /\
       Transaction_fromAtomicBEEF atomic = Resolved tx) /\
  (forall topics np tx,
     In (topics, np, tx) (broadcasts (trace w (updateToken tok msg wallet_arg))) ->
     topics = ["tm_helloworld_bitspv"] /\
     exists net res atomic,
       networks (trace w (updateToken tok msg wallet_arg)) = [net] /\
       np = preset net /\
       signed (trace w (updateToken tok msg wallet_arg)) = [res] /\
       sar_tx res = Some atomic /\
       Transaction_fromAtomicBEEF atomic = Resolved tx) /\
  (forall topics np tx,
     In (topics, np, tx) (broadcasts (trace w (redeemToken tok wallet))) ->
     topics = ["tm_helloworld_bitspv"] /\
     exists net res atomic,
       networks (trace w (redeemToken tok wallet)) = [net] /\
       np = preset net /\
       signed (trace w (redeemToken tok wallet)) = [res] /\
       sar_tx res = Some atomic /\
       Transaction_fromAtomicBEEF atomic = Resolved tx).
Proof.
  split; [|split].
  - run_createToken; read_off.
  - run_updateToken tok; read_off.
  - run_redeemToken; read_off.
Qed.

(** X5. Each operation returns exactly what the broadcaster answered, be it
    an acceptance or a [BroadcastFailure]: the failure is a value of the
    call, not an exception; and nothing is returned unless the broadcaster
    answered. *)
Theorem spending_returns_broadcast_answer (w : World) (tok : HelloWorldToken)
    (msg : string) (wallet_arg : option WalletInterface) (wallet : WalletInterface)
    (r : BroadcastResult) :
  (outcome w (createToken msg wallet_arg) = Ok r <->
     broadcast_answers (trace w (createToken msg wallet_arg)) = [r]) /\
  (outcome w (updateToken tok msg wallet_arg) = Ok r <->
     broadcast_answers (trace w (updateToken tok msg wallet_arg)) = [r]) /\
  (outcome w (redeemToken tok wallet) = Ok r <->
     broadcast_answers (trace w (redeemToken tok wallet)) = [r]).
Proof.
  split; [|split].
  - run_createToken; split; read_off.
  - run_updateToken tok; split; read_off.
  - run_redeemToken; split; read_off.
Qed.

(** X6. Every request an operation makes of a wallet goes to one and the same
    wallet: the one passed in, or a fresh [WalletClient] when [createToken] or
    [updateToken] is called without one. *)
Theorem spending_uses_one_wallet (w : World) (tok : HelloWorldToken) (msg : string)
    (wallet_arg : option WalletInterface) (wallet : WalletInterface) :
  Forall (fun x => x = Js.nullish wallet_arg WalletClient_new)
         (wallets (trace w (createToken msg wallet_arg))) /\
  Forall (fun x => x = Js.nullish wallet_arg WalletClient_new)
         (wallets (trace w (updateToken tok msg wallet_arg))) /\
  Forall (fun x => x = wallet) (wallets (trace w (redeemToken tok wallet))).
Proof.
  split; [|split].
  - run_createToken; simpl; repeat constructor.
  - run_updateToken tok; simpl; repeat constructor.
  - run_redeemToken; simpl; repeat constructor.
Qed.

(** X7. The action [updateToken] asks the wallet to create spends exactly the
    previous token's outpoint, written [txid.outputIndex], with an unlocking
    script budget of 74, carries the re-serialised proof bundle, and makes
    exactly one output of 1 satoshi locked by the script the lock request
    answered.  The action of [redeemToken] has the same input and no outputs.
    Neither accepts a delayed broadcast nor lets outputs be shuffled. *)
Theorem spend_action_shape (w : World) (tok : HelloWorldToken) (msg : string)
    (wallet_arg : option WalletInterface) (wallet : WalletInterface) :
  (forall wl args,
     In (wl, args) (create_calls (trace w (updateToken tok msg wallet_arg))) ->
     exists script loaded,
       lock_answers (trace w (updateToken tok msg wallet_arg)) = [script] /\
       Beef_fromBinary (beef (token tok)) = Resolved loaded /\
       inputBEEF args = Some (Beef_toBinary loaded) /\
       inputs args =
         Some [ {| outpoint := txid (token tok) +:+ "." +:+
                               Js.number_toString (outputIndex (token tok));
                   unlockingScriptLength := 74;
                   inputDescription := "Spend previous HelloWorld token" |} ] /\
       outputs args =
         Some [ {| out_satoshis := 1;
                   out_lockingScript := LockingScript_toHex script;
                   outputDescription := "Updated HelloWorld Token" |} ] /\
       options args = {| acceptDelayedBroadcast := false; randomizeOutputs := false |}) /\
  (forall wl args,
     In (wl, args) (create_calls (trace w (redeemToken tok wallet))) ->
     exists loaded,
       Beef_fromBinary (beef (token tok)) = Resolved loaded /\
       inputBEEF args = Some (Beef_toBinary loaded) /\
       inputs args =
         Some [ {| outpoint := txid (token tok) +:+ "." +:+
                               Js.number_toString (outputIndex (token tok));
                   unlockingScriptLength := 74;
                   inputDescription := "Spend previous HelloWorld token" |} ] /\
       outputs args = None /\
       options args = {| acceptDelayedBroadcast := false; randomizeOutputs := false |}).
Proof.
  split.
  - run_updateToken tok; read_off.
  - run_redeemToken; read_off.
Qed.

(** X8. When [updateToken] or [redeemToken] asks the wallet to finish signing,
    it echoes the reference of the signable transaction and attaches to input
    0 the unlocking script that was derived, for input 0 and under the
    HelloWorld protocol, from that very signable transaction. *)
Theorem sign_request_shape (w : World) (tok : HelloWorldToken) (msg : string)
    (wallet_arg : option WalletInterface) (wallet : WalletInterface) :
  (forall wl args,
     In (wl, args) (sign_calls (trace w (updateToken tok msg wallet_arg))) ->
     exists res st partial u,
       created (trace w (updateToken tok msg wallet_arg)) = [res] /\
       signableTransaction res = Some st /\
       Transaction_fromBEEF (st_tx st) = Resolved partial /\
       unlock_calls (trace w (updateToken tok msg wallet_arg)) =
         [ (wl, (1, "HelloWorld"), "1", "anyone", partial, 0) ] /\
       unlock_answers (trace w (updateToken tok msg wallet_arg)) = [u] /\
       args = {| reference := st_reference st;
                 spends := [ (0, UnlockingScript_toHex u) ] |}) /\
  (forall wl args,
     In (wl, args) (sign_calls (trace w (redeemToken tok wallet))) ->
     exists res st partial u,
       created (trace w (redeemToken tok wallet)) = [res] /\
       signableTransaction res = Some st /\
       Transaction_fromBEEF (st_tx st) = Resolved partial /\
       unlock_calls (trace w (redeemToken tok wallet)) =
         [ (wl, (1, "HelloWorld"), "1", "anyone", partial, 0) ] /\
       unlock_answers (trace w (redeemToken tok wallet)) = [u] /\
       args = {| reference := st_reference st;
                 spends := [ (0, UnlockingScript_toHex u) ] |}).
Proof.
  split.
  - run_updateToken tok; read_off.
  - run_redeemToken; read_off.
Qed.

(** X9. A proof bundle the library cannot parse: [redeemToken] fails with the
    parser's error before any request, while [updateToken] has by then asked
    the wallet for the new locking script, and asks nothing more. *)
Theorem unparsable_proof_bundle (w : World) (tok : HelloWorldToken) (msg : string)
    (wallet_arg : option WalletInterface) (wallet : WalletInterface)
    (bundle : BEEF) (reason : string) :
  beef (token tok) = Some bundle ->
  Beef_fromBinary (Some bundle) = Rejected reason ->
  exec w (redeemToken tok wallet) = (Thrown (Foreign reason), []) /\
  map kind_of (trace w (updateToken tok msg wallet_arg)) = [KLock] /\
  (forall script, lock_answers (trace w (updateToken tok msg wallet_arg)) = [script] ->
     outcome w (updateToken tok msg wallet_arg) = Thrown (Foreign reason)).
Proof.
  intros Hb Hparse.
  unfold trace, outcome, exec, updateToken, redeemToken. rewrite Hb, Hparse.
  cbn [run bind lift call]. split; [reflexivity|].
  repeat await_answer; split; read_off.
Qed.

(** X10. [createToken] and [updateToken] lock a message in the same way: one
    lock request, for the single field of the message's bytes, under protocol
    [(1, "HelloWorld")], key ["1"], counterparty ['anyone'], for self.
    [redeemToken] locks nothing. *)
Theorem lock_request_conventions (w : World) (tok : HelloWorldToken) (msg : string)
    (wallet_arg : option WalletInterface) (wallet : WalletInterface) :
  lock_calls (trace w (createToken msg wallet_arg)) =
    [ (Js.nullish wallet_arg WalletClient_new, [Utils_toArray msg],
       (1, "HelloWorld"), "1", "anyone", true) ] /\
  (beef (token tok) <> None ->
   lock_calls (trace w (updateToken tok msg wallet_arg)) =
     lock_calls (trace w (createToken msg wallet_arg))) /\
  lock_calls (trace w (redeemToken tok wallet)) = [].
Proof.
  split; [|split].
  - run_createToken; read_off.
  - intros Hb. unfold trace, outcome, exec, updateToken, createToken.
    destruct (beef (token tok)); [|congruence].
    cbn [run bind lift call]. repeat await_answer; read_off.
  - run_redeemToken; read_off.
Qed.

(** X20. Of the token they spend, [updateToken] and [redeemToken] read the
    transaction id, the output index and the proof bundle, and nothing else:
    two tokens that agree on these three are spent by the same run, whatever
    their [message], [lockingScript] and [satoshis] say. *)
Theorem spending_reads_reference_and_beef_only (w : World) (t1 t2 : HelloWorldToken)
    (msg : string) (wallet_arg : option WalletInterface) (wallet : WalletInterface) :
  txid (token t1) = txid (token t2) ->
  outputIndex (token t1) = outputIndex (token t2) ->
  beef (token t1) = beef (token t2) ->
  exec w (updateToken t1 msg wallet_arg) = exec w (updateToken t2 msg wallet_arg) /\
  exec w (redeemToken t1 wallet) = exec w (redeemToken t2 wallet).
Proof.
  intros Hid Hidx Hbeef.
  unfold updateToken, redeemToken, spend_input, prevOutpoint.
  now rewrite Hid, Hidx, Hbeef.
Qed.

End SpendingMore.

(** ** More on decoding *)

Section ParsingMore.
Context {sdk : Sdk}.

Lemma map_throwing_first_failure {A B} (f : A -> Result B) (good : list A) (bad : A)
    (rest : list A) (e : Exn) :
  Forall (fun x => exists y, f x = Ok y) good ->
  f bad = Thrown e ->
  map_throwing f (good ++ bad :: rest) = Thrown e.
Proof.
  intros Hgood Hbad. induction Hgood as [|x good [y Hy] _ IH]; simpl.
  - now rewrite Hbad.
  - now rewrite Hy, IH.
Qed.

Lemma index_in_range {A} (xs : list A) (i : Z) :
  in_range xs i = true <-> exists x, Js.index xs i = Some x.
Proof.
  unfold in_range, Js.index. split.
  - intros H. apply andb_true_iff in H as [H0 H1].
    apply Z.leb_le in H0. apply Z.ltb_lt in H1.
    destruct (i <? 0) eqn:Hneg; [apply Z.ltb_lt in Hneg; lia|].
    destruct (nth_error xs (Z.to_nat i)) as [x|] eqn:Hx; [eauto|].
    apply nth_error_None in Hx. lia.
  - intros [x Hx]. destruct (i <? 0) eqn:Hneg; [discriminate Hx|].
    apply Z.ltb_ge in Hneg.
    assert (Z.to_nat i < length xs)%nat as Hlt
      by (apply nth_error_Some; congruence).
    apply andb_true_iff. split; [apply Z.leb_le|apply Z.ltb_lt]; lia.
Qed.

Lemma parseLookupAnswer_list (a : LookupAnswer) (ib : option bool)
    (o : LookupOutput) (outs : list LookupOutput) :
  answer_type a = "output-list" -> answer_outputs a = Some (o :: outs) ->
  parseLookupAnswer a ib = map_throwing (parseOutput ib) (o :: outs).
Proof. intros Hty Houts. unfold parseLookupAnswer. now rewrite Hty, Houts. Qed.

(** X11. Decoding is all or nothing: when the library throws on one output,
    [parseLookupAnswer] throws that error, the one of the first such output,
    and gives back none of the tokens it had decoded before it. *)
Theorem parseLookupAnswer_all_or_nothing (a : LookupAnswer) (ib : option bool)
    (good : list LookupOutput) (bad : LookupOutput) (rest : list LookupOutput)
    (e : Exn) :
  answer_type a = "output-list" ->
  answer_outputs a = Some (good ++ bad :: rest) ->
  Forall (fun o => exists t, parseOutput ib o = Ok t) good ->
  parseOutput ib bad = Thrown e ->
  parseLookupAnswer a ib = Thrown e.
Proof.
  intros Hty Houts Hgood Hbad.
  destruct (good ++ bad :: rest) as [|o outs] eqn:Hl.
  - destruct good; discriminate Hl.
  - rewrite (parseLookupAnswer_list a ib o outs Hty Houts), <- Hl.
    now apply map_throwing_first_failure.
Qed.

Lemma map_throwing_throws {A B} (f : A -> Result B) (before : list A) (bad : A)
    (rest : list A) (e : Exn) :
  f bad = Thrown e ->
  exists e', map_throwing f (before ++ bad :: rest) = Thrown e'.
Proof.
  intros Hbad. induction before as [|x before [e' IH]]; simpl.
  - rewrite Hbad. simpl. eauto.
  - destruct (f x) as [y|ex]; simpl; [|eauto].
    rewrite IH. simpl. eauto.
Qed.

(** X12. An output whose index is not a position of its transaction's outputs
    makes [parseLookupAnswer] throw, wherever the output stands in the list:
    no token is returned.  When every output before it decodes, the error is
    a [TypeError]: the missing output is read without a test. *)
Theorem parseLookupAnswer_output_index_out_of_range (a : LookupAnswer)
    (ib : option bool) (before : list LookupOutput) (o : LookupOutput)
    (rest : list LookupOutput) (tx : Transaction) :
  answer_type a = "output-list" ->
  answer_outputs a = Some (before ++ o :: rest) ->
  Transaction_fromBEEF (lo_beef o) = Resolved tx ->
  in_range (Transaction_outputs tx) (lo_outputIndex o) = false ->
  (exists e, parseLookupAnswer a ib = Thrown e) /\
  (Forall (fun o' => exists t, parseOutput ib o' = Ok t) before ->
   exists m, parseLookupAnswer a ib = Thrown (TypeError m)).
Proof.
  intros Hty Houts Htx Hrange.
  assert (Js.index (Transaction_outputs tx) (lo_outputIndex o) = None) as Hnone.
  { destruct (Js.index (Transaction_outputs tx) (lo_outputIndex o)) as [x|] eqn:Hx;
      [|reflexivity].
    assert (in_range (Transaction_outputs tx) (lo_outputIndex o) = true)
      by (apply index_in_range; eauto).
    congruence. }
  assert (exists m, parseOutput ib o = Thrown (TypeError m)) as [m Hbad].
  { unfold parseOutput. rewrite Htx. simpl. rewrite Hnone. eauto. }
  destruct (before ++ o :: rest) as [|o' outs] eqn:Hl.
  { destruct before; discriminate Hl. }
  rewrite (parseLookupAnswer_list a ib o' outs Hty Houts), <- Hl. split.
  - eapply map_throwing_throws. exact Hbad.
  - intros Hbefore. exists m. now apply map_throwing_first_failure.
Qed.

(** X13. An output list decodes to one token per output, in the order of the
    outputs, and any other answer to none; each token's reference is rebuilt
    from its output: the id of the transaction decoded from the bundle, the
    output's own index, which is a position of that transaction's outputs, and
    the satoshis found there. *)
Theorem parseLookupAnswer_reference (a : LookupAnswer) (ib : option bool)
    (toks : list HelloWorldToken) :
  parseLookupAnswer a ib = Ok toks ->
  (answer_type a <> "output-list" -> toks = []) /\
  (forall outs, answer_type a = "output-list" -> answer_outputs a = Some outs ->
     length toks = length outs /\
     Forall2 (fun o t =>
       exists tx out,
         Transaction_fromBEEF (lo_beef o) = Resolved tx /\
         in_range (Transaction_outputs tx) (lo_outputIndex o) = true /\
         Js.index (Transaction_outputs tx) (lo_outputIndex o) = Some out /\
         txid (token t) = Transaction_id_hex tx /\
         outputIndex (token t) = lo_outputIndex o /\
         satoshis (token t) = to_satoshis out)
       outs toks).
Proof.
  intros H. destruct (parseLookupAnswer_per_output _ _ _ H) as [Hother Hlist].
  split; [exact Hother|].
  intros outs Hty Houts. specialize (Hlist outs Hty Houts). split.
  - symmetry. eapply Forall2_length. exact Hlist.
  - eapply Forall2_impl; [exact Hlist|].
    intros o t Ht.
    destruct (parseOutput_Ok _ _ _ Ht) as (tx & out & data & Htx & Hout & _ & _ & Htok).
    exists tx, out. rewrite Htok. simpl.
    repeat split; auto. apply index_in_range. eauto.
Qed.

Lemma parseOutput_without_beef (ib : option bool) (o : LookupOutput) :
  Result_map without_beef (parseOutput ib o) = parseOutput None o.
Proof.
  unfold parseOutput.
  destruct (Transaction_fromBEEF (lo_beef o)) as [tx|]; simpl; [|reflexivity].
  destruct (Js.index (Transaction_outputs tx) (lo_outputIndex o)) as [out|];
    [|reflexivity].
  destruct (PushDrop_decode (to_lockingScript out)) as [data|]; simpl; [|reflexivity].
  destruct (Utils_toUTF8 (head (fields data))); reflexivity.
Qed.

Lemma map_throwing_without_beef (ib : option bool) (outs : list LookupOutput) :
  Result_map (map without_beef) (map_throwing (parseOutput ib) outs) =
  map_throwing (parseOutput None) outs.
Proof.
  induction outs as [|o outs IH]; simpl; [reflexivity|].
  rewrite <- parseOutput_without_beef with (ib := ib), <- IH.
  destruct (parseOutput ib o); simpl; [|reflexivity].
  destruct (map_throwing (parseOutput ib) outs); reflexivity.
Qed.

(** X14. [includeBeef] changes nothing but the [beef] field: whether decoding
    succeeds, which error it throws, and every other field of every token are
    the same with and without it; and any value of [includeBeef] other than
    [true] gives the very result of leaving it out. *)
Theorem parseLookupAnswer_includeBeef_only_adds_beef (a : LookupAnswer)
    (ib : option bool) :
  Result_map (map without_beef) (parseLookupAnswer a ib) = parseLookupAnswer a None /\
  (ib <> Some true -> parseLookupAnswer a ib = parseLookupAnswer a None).
Proof.
  split.
  - unfold parseLookupAnswer.
    destruct (negb (String.eqb (answer_type a) "output-list")); [reflexivity|].
    destruct (answer_outputs a) as [outs|]; [|reflexivity].
    destruct (length outs =? 0)%nat; [reflexivity|].
    apply map_throwing_without_beef.
  - intros Hib. unfold parseLookupAnswer, parseOutput.
    destruct ib as [[|]|]; [congruence|reflexivity|reflexivity].
Qed.

End ParsingMore.

(** ** More on querying *)

Lemma trimEnd_idempotent (s : string) : Js.trimEnd (Js.trimEnd s) = Js.trimEnd s.
Proof.
  induction s as [|c r IH]; simpl; [reflexivity|].
  destruct (Js.trimEnd r) as [|c' r'] eqn:Er.
  - destruct (Js.is_white_space c) eqn:Ec; simpl; [reflexivity|].
    now rewrite Ec.
  - simpl. simpl in IH. rewrite IH. reflexivity.
Qed.

Lemma trimStart_fixed (c : ascii) (r : string) :
  Js.is_white_space c = false -> Js.trimStart (String c r) = String c r.
Proof. intros Hc. simpl. now rewrite Hc. Qed.

(** Trimming twice is trimming once. *)
Lemma trim_idempotent (s : string) : Js.trim (Js.trim s) = Js.trim s.
Proof.
  destruct (trim_ends s) as [Hhead _].
  destruct (Js.trim s) as [|c r] eqn:Et; [reflexivity|].
  unfold Js.trim at 1. rewrite trimStart_fixed by (eapply Hhead; reflexivity).
  rewrite <- Et. unfold Js.trim. apply trimEnd_idempotent.
Qed.

Lemma query_same_trim (p p' : Params.t) (m m' : string) :
  Params.limit p' = Params.limit p -> Params.skip p' = Params.skip p ->
  Params.sortOrder p' = Params.sortOrder p ->
  Params.startDate p' = Params.startDate p -> Params.endDate p' = Params.endDate p ->
  Params.message p = Some m -> Params.message p' = Some m' ->
  Js.trim m' = Js.trim m ->
  queryTokens_query p' = queryTokens_query p.
Proof.
  intros Hl Hs Ho Hsd Hed Hm Hm' Ht. unfold queryTokens_query.
  now rewrite Hl, Hs, Ho, Hsd, Hed, Hm, Hm', Ht.
Qed.

Section QueryingMore.
Context {sdk : Sdk}.

(** X15. The query object has the keys [limit], [skip] and [sortOrder] in
    every call, [message] only for a message that is not blank, [startDate]
    and [endDate] only for a date that is not empty, and never another key;
    a given [skip] or [sortOrder] goes out as it is. *)
Theorem queryTokens_query_keys (w : World) (params : Params.t) (opts_arg : option Opts.t) :
  exists q : gmap string QValue,
    sent_queries (trace w (queryTokens params opts_arg)) = [q] /\
    dom q =
      ({["limit"]} ∪ {["skip"]} ∪ {["sortOrder"]}
       ∪ (match Params.message params with
          | Some m => if Js.whitespace_only m then ∅ else {["message"]}
          | None => ∅
          end)
       ∪ (match Params.startDate params with
          | Some (String _ _) => {["startDate"]}
          | _ => ∅
          end)
       ∪ (match Params.endDate params with
          | Some (String _ _) => {["endDate"]}
          | _ => ∅
          end) : gset string) /\
    (forall k, Params.skip params = Some k -> q !! "skip" = Some (QNum k)) /\
    (Params.sortOrder params = Some asc -> q !! "sortOrder" = Some (QStr "asc")) /\
    (Params.sortOrder params = Some desc -> q !! "sortOrder" = Some (QStr "desc")).
Proof.
  exists (queryTokens_query params). split; [apply queryTokens_sends|].
  split; [|rewrite query_skip, query_sortOrder;
           repeat split; intros; subst;
           repeat match goal with H : _ = _ |- _ => rewrite H end; reflexivity].
  unfold queryTokens_query.
  destruct (Params.message params) as [m|];
    [rewrite trim_truthy; destruct (Js.whitespace_only m); simpl|];
  (destruct (Params.startDate params) as [[|? ?]|]; simpl);
  (destruct (Params.endDate params) as [[|? ?]|]; simpl);
  rewrite ?dom_insert_L, dom_empty_L; set_solver.
Qed.

(** X16. White space around a message makes no difference: [queryTokens] and
    [findTokenByMessage] run the same with a message and with that message
    trimmed, so the search of [findTokenByMessage] is not for the exact
    string it is given. *)
Theorem message_padding_is_ignored (w : World) (params : Params.t)
    (opts_arg : option Opts.t) (fopts_arg : option FindOpts.t) (m : string) :
  (Params.message params = Some m ->
   exec w (queryTokens params opts_arg) =
   exec w (queryTokens
             (Params.mk (Params.limit params) (Params.skip params)
                        (Params.sortOrder params) (Some (Js.trim m))
                        (Params.startDate params) (Params.endDate params))
             opts_arg)) /\
  exec w (findTokenByMessage m fopts_arg) =
  exec w (findTokenByMessage (Js.trim m) fopts_arg).
Proof.
  split.
  - intros Hm. unfold queryTokens.
    rewrite (query_same_trim params
               (Params.mk (Params.limit params) (Params.skip params)
                          (Params.sortOrder params) (Some (Js.trim m))
                          (Params.startDate params) (Params.endDate params))
               m (Js.trim m)); auto using trim_idempotent.
  - unfold findTokenByMessage, queryTokens.
    rewrite (query_same_trim
               (Params.mk (Js.nullish (FindOpts.limit (Js.nullish fopts_arg FindOpts.empty)) 100)
                          None (Some desc) (Some m) None None)
               (Params.mk (Js.nullish (FindOpts.limit (Js.nullish fopts_arg FindOpts.empty)) 100)
                          None (Some desc) (Some (Js.trim m)) None None)
               m (Js.trim m)); auto using trim_idempotent.
Qed.

(** X17. [findTokenByMessage] never sends a date filter and never skips: its
    query object has [limit], [skip] 0 and [sortOrder], and [message] when the
    message is not blank, and no other key. *)
Theorem findTokenByMessage_query_keys (w : World) (msg : string)
    (opts_arg : option FindOpts.t) :
  exists q : gmap string QValue,
    sent_queries (trace w (findTokenByMessage msg opts_arg)) = [q] /\
    dom q =
      ({["limit"]} ∪ {["skip"]} ∪ {["sortOrder"]}
       ∪ (if Js.whitespace_only msg then ∅ else {["message"]}) : gset string) /\
    q !! "skip" = Some (QNum 0) /\
    q !! "startDate" = None /\ q !! "endDate" = None.
Proof.
  unfold findTokenByMessage. eexists. split; [apply queryTokens_sends|].
  rewrite query_skip, query_startDate, query_endDate. simpl.
  repeat split.
  unfold queryTokens_query. simpl.
  rewrite trim_truthy; destruct (Js.whitespace_only msg); simpl;
    rewrite ?dom_insert_L, dom_empty_L; set_solver.
Qed.

(** X18. [queryTokens] and [findTokenByMessage] only read: one request, to the
    resolver, and none to a wallet or a broadcaster.  When the resolver
    answers, the outcome is the decoding of its answer; when it fails, its
    error is thrown as it is, and no second request is made. *)
Theorem queryTokens_read_only (w : World) (params : Params.t) (opts_arg : option Opts.t)
    (msg : string) (fopts_arg : option FindOpts.t) :
  map kind_of (trace w (queryTokens params opts_arg)) = [KQuery] /\
  map kind_of (trace w (findTokenByMessage msg fopts_arg)) = [KQuery] /\
  (forall a, lookup_answers (trace w (queryTokens params opts_arg)) = [a] ->
     outcome w (queryTokens params opts_arg) =
     parseLookupAnswer a (opts_arg ≫= Opts.includeBeef)) /\
  (forall reason, rejections (trace w (queryTokens params opts_arg)) = [reason] ->
     outcome w (queryTokens params opts_arg) = Thrown (Foreign reason)) /\
  (lookup_answers (trace w (queryTokens params opts_arg)) = [] ->
     exists reason, rejections (trace w (queryTokens params opts_arg)) = [reason]).
Proof.
  assert (forall p o, map kind_of (trace w (queryTokens p o)) = [KQuery]) as Hkind.
  { intros p o. unfold trace, exec, queryTokens. cbn [run bind lift call].
    await_answer; [|reflexivity].
    destruct (parseLookupAnswer _ _); reflexivity. }
  split; [apply Hkind|]. split; [apply Hkind|].
  unfold trace, outcome, exec, queryTokens. cbn [run bind lift call].
  await_answer.
  - assert (Opts.includeBeef (Js.nullish opts_arg Opts.empty)
            = opts_arg ≫= Opts.includeBeef) as -> by (destruct opts_arg; reflexivity).
    destruct (parseLookupAnswer a _) eqn:Hp; simpl;
      (split; [|split]); intros; simplify_eq/=; try rewrite Hp; eauto.
  - simpl. (split; [|split]); intros; simplify_eq/=; eauto.
Qed.

(** X19. A token found without [includeBeef] (or with it set to anything but
    [true]) cannot be updated as it is: [updateToken] stops at its guard with
    the missing-proof error and asks nothing.  A token found with
    [includeBeef] set to [true] passes the guard: [updateToken] goes on to ask
    the wallet for the new locking script. *)
Theorem queried_token_updates_only_with_beef (wq w : World) (params : Params.t)
    (opts_arg : option Opts.t) (toks : list HelloWorldToken) (t : HelloWorldToken)
    (msg : string) (wallet_arg : option WalletInterface) :
  outcome wq (queryTokens params opts_arg) = Ok toks ->
  In t toks ->
  (opts_arg ≫= Opts.includeBeef <> Some true ->
     exec w (updateToken t msg wallet_arg) = (Thrown MissingProofError, [])) /\
  (opts_arg ≫= Opts.includeBeef = Some true ->
     outcome w (updateToken t msg wallet_arg) <> Thrown MissingProofError /\
     exists more, map kind_of (trace w (updateToken t msg wallet_arg)) = KLock :: more).
Proof.
  intros Hq Hin.
  assert (exists a, parseLookupAnswer a (opts_arg ≫= Opts.includeBeef) = Ok toks)
    as [a Hparse].
  { revert Hq. unfold outcome, exec, queryTokens. cbn [run bind lift call].
    assert (Opts.includeBeef (Js.nullish opts_arg Opts.empty)
            = opts_arg ≫= Opts.includeBeef) as -> by (destruct opts_arg; reflexivity).
    await_answer; [|discriminate].
    destruct (parseLookupAnswer a _) eqn:Hp; simpl; intros; simplify_eq. eauto. }
  destruct (parseLookupAnswer_tokens _ _ _ Hparse) as (outs & _ & Hall).
  assert (exists o, parseOutput (opts_arg ≫= Opts.includeBeef) o = Ok t) as [o Ho].
  { clear -Hall Hin. induction Hall as [|o t' outs toks Hot _ IH]; [destruct Hin|].
    destruct Hin as [->|Hin]; eauto. }
  destruct (parseOutput_Ok _ _ _ Ho) as (tx & out & data & _ & _ & _ & _ & Htok).
  split.
  - intros Hib. apply updateToken_requires_proof. rewrite Htok. simpl.
    destruct (opts_arg ≫= Opts.includeBeef) as [[|]|]; simpl; congruence.
  - intros Hib.
    assert (beef (token t) = Some (lo_beef o)) as Hb
      by (rewrite Htok, Hib; reflexivity).
    unfold trace, outcome, exec, updateToken. rewrite Hb.
    cbn [run bind lift call]. unfold MissingProofError, SigningError.
    repeat await_answer; split; read_off.
Qed.

End QueryingMore.

(** ** More examples *)

(** X1 on a wallet that builds nothing. *)
Lemma createToken_needs_transaction_witness :
  outcome (Demo.plain_world (Resolved {| car_tx := None; signableTransaction := None |})
                            (Rejected "not asked"))
          (createToken "hi" None)
    = Thrown ConstructionError /\
  happened KBroadcast
    (trace (Demo.plain_world (Resolved {| car_tx := None; signableTransaction := None |})
                             (Rejected "not asked"))
           (createToken "hi" None))
    = false.
Proof.
  apply (proj1 (createToken_needs_transaction
                  (Demo.plain_world
                     (Resolved {| car_tx := None; signableTransaction := None |})
                     (Rejected "not asked"))
                  "hi" None)
               {| car_tx := None; signableTransaction := None |}).
  - left. reflexivity.
  - reflexivity.
Defined.

(** X4 on an update that goes through: the wallet is on mainnet. *)
Lemma broadcast_destination_witness :
  ["tm_helloworld_bitspv"] = ["tm_helloworld_bitspv"] /\
  exists net res atomic,
    networks (trace (Demo.plain_world (Resolved Demo.signable_answer)
                                      (Resolved {| sar_tx := Some [9] |}))
                    (updateToken Demo.token_with_beef "bye" (Some Demo.wallet)))
      = [net] /\
    preset mainnet = preset net /\
    signed (trace (Demo.plain_world (Resolved Demo.signable_answer)
                                    (Resolved {| sar_tx := Some [9] |}))
                  (updateToken Demo.token_with_beef "bye" (Some Demo.wallet)))
      = [res] /\
    sar_tx res = Some atomic /\
    @Transaction_fromAtomicBEEF Demo.sdk atomic = Resolved [ mkTxOut [9] (Some 1) ].
Proof.
  apply (proj1 (proj2 (broadcast_destination
                         (Demo.plain_world (Resolved Demo.signable_answer)
                                           (Resolved {| sar_tx := Some [9] |}))
                         Demo.token_with_beef "bye" (Some Demo.wallet) Demo.wallet))
               ["tm_helloworld_bitspv"] (preset mainnet) [ mkTxOut [9] (Some 1) ]).
  left. reflexivity.
Defined.

(** X9 on a token whose bundle is empty. *)
Lemma unparsable_proof_bundle_witness :
  exec (Demo.plain_world (Resolved Demo.signable_answer)
                         (Resolved {| sar_tx := Some [9] |}))
       (redeemToken Demo.token_with_empty_beef Demo.wallet)
    = (Thrown (Foreign "Serialized BEEF must start with a version number"), []) /\
  map kind_of
      (trace (Demo.plain_world (Resolved Demo.signable_answer)
                               (Resolved {| sar_tx := Some [9] |}))
             (updateToken Demo.token_with_empty_beef "bye" None))
    = [KLock].
Proof.
  pose proof (unparsable_proof_bundle
                (Demo.plain_world (Resolved Demo.signable_answer)
                                  (Resolved {| sar_tx := Some [9] |}))
                Demo.token_with_empty_beef "bye" None Demo.wallet
                [] "Serialized BEEF must start with a version number"
                eq_refl eq_refl) as (Hr & Hu & _).
  split; [exact Hr | exact Hu].
Defined.

(** X11 on an answer whose second output is spoiled. *)
Lemma parseLookupAnswer_all_or_nothing_witness :
  parseLookupAnswer (sdk := Demo.sdk) Demo.spoiled_answer None
    = Thrown (Foreign "Serialized BEEF must start with a version number").
Proof.
  apply (parseLookupAnswer_all_or_nothing (sdk := Demo.sdk) Demo.spoiled_answer None
           [ {| lo_beef := [104; 105]; lo_outputIndex := 0 |} ]
           {| lo_beef := []; lo_outputIndex := 0 |}
           [ {| lo_beef := [111]; lo_outputIndex := 0 |} ]).
  - reflexivity.
  - reflexivity.
  - constructor; [|constructor]. eexists. reflexivity.
  - reflexivity.
Defined.

(** X12 on an answer that points past the outputs, alone and after a
    spoiled output. *)
Lemma parseLookupAnswer_output_index_out_of_range_witness :
  (exists m, parseLookupAnswer (sdk := Demo.sdk) Demo.misindexed_answer (Some true)
             = Thrown (TypeError m)) /\
  (exists e, parseLookupAnswer (sdk := Demo.sdk) Demo.spoiled_then_misindexed_answer None
             = Thrown e).
Proof.
  split.
  - apply (proj2 (parseLookupAnswer_output_index_out_of_range (sdk := Demo.sdk)
                    Demo.misindexed_answer (Some true) []
                    {| lo_beef := [104; 105]; lo_outputIndex := 3 |} []
                    [ mkTxOut [104; 105] (Some 1) ]
                    eq_refl eq_refl eq_refl eq_refl)).
    constructor.
  - apply (proj1 (parseLookupAnswer_output_index_out_of_range (sdk := Demo.sdk)
                    Demo.spoiled_then_misindexed_answer None
                    [ {| lo_beef := []; lo_outputIndex := 0 |} ]
                    {| lo_beef := [104; 105]; lo_outputIndex := 3 |} []
                    [ mkTxOut [104; 105] (Some 1) ]
                    eq_refl eq_refl eq_refl eq_refl)).
Defined.

(** X13 on the answer of two outputs. *)
Lemma parseLookupAnswer_reference_witness :
  length Demo.two_tokens_with_beef = length Demo.two_outputs /\
  Forall2 (fun o t =>
    exists (tx : @Transaction Demo.sdk)
           (out : TransactionOutput (@LockingScript Demo.sdk)),
      Transaction_fromBEEF (lo_beef o) = Resolved tx /\
      in_range (Transaction_outputs tx) (lo_outputIndex o) = true /\
      Js.index (Transaction_outputs tx) (lo_outputIndex o) = Some out /\
      txid (token t) = Transaction_id_hex tx /\
      outputIndex (token t) = lo_outputIndex o /\
      satoshis (token t) = to_satoshis out)
    Demo.two_outputs Demo.two_tokens_with_beef.
Proof.
  apply (proj2 (parseLookupAnswer_reference (sdk := Demo.sdk)
                  Demo.two_output_answer (Some true) Demo.two_tokens_with_beef eq_refl)
               Demo.two_outputs eq_refl eq_refl).
Defined.

(** X19 on the token that says "hi", found without and with its bundle. *)
Lemma queried_token_updates_only_with_beef_witness :
  exec (Demo.plain_world (Resolved Demo.signable_answer)
                         (Resolved {| sar_tx := Some [9] |}))
       (updateToken Demo.token_without_beef "bye" None)
    = (Thrown MissingProofError, []) /\
  exists more,
    map kind_of
        (trace (Demo.plain_world (Resolved Demo.signable_answer)
                                 (Resolved {| sar_tx := Some [9] |}))
               (updateToken Demo.token_with_beef "bye" None))
      = KLock :: more.
Proof.
  split.
  - apply (proj1 (queried_token_updates_only_with_beef
                    (Demo.query_world Demo.hello_answer)
                    (Demo.plain_world (Resolved Demo.signable_answer)
                                      (Resolved {| sar_tx := Some [9] |}))
                    (Params.mk 10 None None None None None) None
                    [ Demo.token_without_beef ] Demo.token_without_beef "bye" None
                    eq_refl (or_introl eq_refl))).
    discriminate.
  - apply (proj2 (queried_token_updates_only_with_beef
                    (Demo.query_world Demo.hello_answer)
                    (Demo.plain_world (Resolved Demo.signable_answer)
                                      (Resolved {| sar_tx := Some [9] |}))
                    (Params.mk 10 None None None None None)
                    (Some (Opts.mk None None None (Some true)))
                    [ Demo.token_with_beef ] Demo.token_with_beef "bye" None
                    eq_refl (or_introl eq_refl))).
    reflexivity.
Defined.

(** X20 on two tokens that differ in their message only. *)
Lemma spending_reads_reference_and_beef_only_witness :
  exec (Demo.plain_world (Resolved Demo.signable_answer)
                         (Resolved {| sar_tx := Some [9] |}))
       (updateToken Demo.token_with_beef "bye" None)
  = exec (Demo.plain_world (Resolved Demo.signable_answer)
                           (Resolved {| sar_tx := Some [9] |}))
         (updateToken (mkToken "another message" (token Demo.token_with_beef)) "bye" None)
  /\
  exec (Demo.plain_world (Resolved Demo.signable_answer)
                         (Resolved {| sar_tx := Some [9] |}))
       (redeemToken Demo.token_with_beef Demo.wallet)
  = exec (Demo.plain_world (Resolved Demo.signable_answer)
                           (Resolved {| sar_tx := Some [9] |}))
         (redeemToken (mkToken "another message" (token Demo.token_with_beef))
                      Demo.wallet).
Proof.
  apply (spending_reads_reference_and_beef_only
           (Demo.plain_world (Resolved Demo.signable_answer)
                             (Resolved {| sar_tx := Some [9] |}))
           Demo.token_with_beef
           (mkToken "another message" (token Demo.token_with_beef))
           "bye" None Demo.wallet); reflexivity.
Defined.

(** Padding in the search string: the query that goes out asks for "hi". *)
Example findTokenByMessage_padded :
  sent_queries (trace (Demo.query_world Demo.hello_answer)
                      (findTokenByMessage "  hi  " None))
  = sent_queries (trace (Demo.query_world Demo.hello_answer)
                        (findTokenByMessage "hi" None)).
Proof. reflexivity. Qed.

(** X7 on a redemption: the action creates no output. *)
Lemma spend_action_shape_witness :
  exists loaded,
    @Beef_fromBinary Demo.sdk (beef (token Demo.token_with_beef)) = Resolved loaded /\
    inputBEEF
      {| description := "Redeem HelloWorld token";
         inputBEEF := Some [104; 105];
         inputs := Some [ {| outpoint := "aa1.0"; unlockingScriptLength := 74;
                             inputDescription := "Spend previous HelloWorld token" |} ];
         outputs := None;
         options := {| acceptDelayedBroadcast := false; randomizeOutputs := false |} |}
      = Some (Beef_toBinary loaded) /\
    Some [ {| outpoint := "aa1.0"; unlockingScriptLength := 74;
              inputDescription := "Spend previous HelloWorld token" |} ]
      = Some [ {| outpoint := txid (token Demo.token_with_beef) +:+ "." +:+
                              Js.number_toString (outputIndex (token Demo.token_with_beef));
                  unlockingScriptLength := 74;
                  inputDescription := "Spend previous HelloWorld token" |} ] /\
    @None (list CreateActionOutput) = None /\
    {| acceptDelayedBroadcast := false; randomizeOutputs := false |}
      = {| acceptDelayedBroadcast := false; randomizeOutputs := false |}.
Proof.
  apply (proj2 (spend_action_shape
                  (Demo.plain_world (Resolved Demo.signable_answer)
                                    (Resolved {| sar_tx := Some [9] |}))
                  Demo.token_with_beef "bye" None Demo.wallet)
               Demo.wallet
               {| description := "Redeem HelloWorld token";
                  inputBEEF := Some [104; 105];
                  inputs := Some [ {| outpoint := "aa1.0"; unlockingScriptLength := 74;
                                      inputDescription := "Spend previous HelloWorld token" |} ];
                  outputs := None;
                  options := {| acceptDelayedBroadcast := false;
                                randomizeOutputs := false |} |}).
  left. reflexivity.
Defined.

(** X8 on a redemption: the reference ["ref"] is echoed, and input 0 gets the
    script the signer derived. *)
Lemma sign_request_shape_witness :
  exists res st (partial : @Transaction Demo.sdk) (u : @UnlockingScript Demo.sdk),
    created (trace (Demo.plain_world (Resolved Demo.signable_answer)
                                     (Resolved {| sar_tx := Some [9] |}))
                   (redeemToken Demo.token_with_beef Demo.wallet)) = [res] /\
    signableTransaction res = Some st /\
    Transaction_fromBEEF (st_tx st) = Resolved partial /\
    unlock_calls (trace (Demo.plain_world (Resolved Demo.signable_answer)
                                          (Resolved {| sar_tx := Some [9] |}))
                        (redeemToken Demo.token_with_beef Demo.wallet))
      = [ (Demo.wallet, (1, "HelloWorld"), "1", "anyone", partial, 0) ] /\
    unlock_answers (trace (Demo.plain_world (Resolved Demo.signable_answer)
                                            (Resolved {| sar_tx := Some [9] |}))
                          (redeemToken Demo.token_with_beef Demo.wallet)) = [u] /\
    {| reference := "ref"; spends := [ (0, "47") ] |}
      = {| reference := st_reference st; spends := [ (0, UnlockingScript_toHex u) ] |}.
Proof.
  apply (proj2 (sign_request_shape
                  (Demo.plain_world (Resolved Demo.signable_answer)
                                    (Resolved {| sar_tx := Some [9] |}))
                  Demo.token_with_beef "bye" None Demo.wallet)
               Demo.wallet {| reference := "ref"; spends := [ (0, "47") ] |}).
  left. reflexivity.
Defined.
